(** * Roastify rate limiter: a shallow embedding of [src/core/rate_limiter.py]

    The limiter keeps two dictionaries, [rules] and [counters], and a table of
    per-pair locks.  Every public method reads the wall clock at most once, so
    each embedded method takes that reading as its last argument [clock].

    Numbers.  Python [int] is [Z].  Python [float] (the result of
    [time.time()], token and water levels, rates) is embedded as an exact
    rational [Q]: the arithmetic is the one the source writes, without
    rounding.  Statements about rationals use [==] ([Qeq]).

    Exceptions.  [ZeroDivisionError] (a zero period or a zero rate) and
    [KeyError] (a counter dictionary read under a strategy that did not
    create it) are outcomes of a call, next to the returned pair. *)

From Stdlib Require Import ZArith QArith Qminmax Lqa Lia Sorted.
From stdpp Require Import gmap strings list fin_maps.

Open Scope Z_scope.

(** ** Python primitives used by the module *)

Module Py.

(** [int(x)] on a float: truncation toward zero. *)
Definition int (x : Q) : Z := Z.quot (Qnum x) (Z.pos (Qden x)).

(** [a % b] on ints: the sign follows the divisor; a zero divisor raises. *)
Definition mod_ (a b : Z) : option Z :=
  if b =? 0 then None else Some (a mod b).

(** [a / b], true division; a zero divisor raises. *)
Definition div (a b : Q) : option Q :=
  if Qeq_bool b 0 then None else Some (a / b)%Q.

(** [a > b] on numbers. *)
Definition gt (a b : Q) : bool := negb (Qle_bool a b).

(** [x or d] where [x] is an [Optional[int]]: [None] and [0] are falsy. *)
Definition truthy (x : option Z) : option Z :=
  match x with
  | Some b => if b =? 0 then None else Some b
  | None => None
  end.

Definition or_ (x : option Z) (d : Z) : Z :=
  match truthy x with Some b => b | None => d end.

(** [min(l)] on a list of numbers; [None] stands for the empty list,
    which the source never passes. *)
Definition min_list (l : list Q) : option Q :=
  match l with
  | [] => None
  | x :: l' => Some (fold_left Qmin l' x)
  end.

(** [range(n)] has [max(0, n)] elements. *)
Definition range_len (n : Z) : nat := Z.to_nat n.

End Py.

(** ** Data model *)

Inductive RateLimitStrategy :=
| FIXED_WINDOW
| SLIDING_WINDOW
| TOKEN_BUCKET
| LEAKY_BUCKET.

Record RateLimitRule := mkRule {
  strategy : RateLimitStrategy;
  requests_per_period : Z;
  period_seconds : Z;
  burst_limit : option Z;
  cost_per_request : Z
}.

(** A counter is a Python dict built by one of four dict literals; afterwards
    only keys of that literal are assigned.  The key set of the dict therefore
    identifies which literal built it, and the dict is embedded as a tagged
    union with one constructor per literal. *)
Inductive Counter :=
| FixedWindowCounter (count window reset_time : Z)
| SlidingWindowCounter (timestamps : list Q) (count : Z)
| TokenBucketCounter (tokens last_update : Q)
| LeakyBucketCounter (water_level last_leak : Q) (capacity : Z).

Inductive PyExn :=
| ZeroDivisionError
| KeyError (field : string).

(** Values stored in the diagnostics dict; a number is kept by its value. *)
Inductive PyVal :=
| VBool (b : bool)
| VStr (s : string)
| VNum (q : Q).

Definition Info := list (string * PyVal).

Fixpoint info_get (k : string) (i : Info) : option PyVal :=
  match i with
  | [] => None
  | (k', v) :: i' => if String.eqb k k' then Some v else info_get k i'
  end.

Inductive Outcome :=
| Return (allowed : bool) (info : Info)
| Raise (e : PyExn).

Record RateLimiter := mkLimiter {
  rules : gmap string RateLimitRule;
  counters : gmap string Counter;
  locks : gset string
}.

(** [RateLimiter()] *)
Definition new_limiter : RateLimiter :=
  {| rules := ∅; counters := ∅; locks := ∅ |}.

Definition set_counter (self : RateLimiter) (k : string) (c : Counter) : RateLimiter :=
  {| rules := rules self; counters := <[k := c]> (counters self); locks := locks self |}.

(** [f"{key}:{identifier}"] *)
Definition counter_key (key identifier : string) : string :=
  String.append key (String.append ":" identifier).

(** ** Rule registry *)

Definition add_rule (self : RateLimiter) (key : string) (rule : RateLimitRule) : RateLimiter :=
  {| rules := <[key := rule]> (rules self); counters := counters self; locks := locks self |}.

Definition add_default_rules (self : RateLimiter) : RateLimiter :=
  let self := add_rule self "user:message" (mkRule SLIDING_WINDOW 30 60 (Some 50) 1) in
  let self := add_rule self "user:command" (mkRule TOKEN_BUCKET 10 60 (Some 20) 1) in
  let self := add_rule self "group:message" (mkRule FIXED_WINDOW 100 60 None 1) in
  let self := add_rule self "api:requests" (mkRule LEAKY_BUCKET 1000 3600 (Some 2000) 1) in
  add_rule self "user:image" (mkRule SLIDING_WINDOW 20 3600 None 1).

(** The rate [requests_per_period / period_seconds] of the bucket strategies. *)
Definition rate (rule : RateLimitRule) : option Q :=
  Py.div (inject_Z (requests_per_period rule)) (inject_Z (period_seconds rule)).

(** Bucket capacity, [rule.burst_limit or rule.requests_per_period]. *)
Definition bucket_capacity (rule : RateLimitRule) : Z :=
  Py.or_ (burst_limit rule) (requests_per_period rule).

(** ** Limiter engine *)

Definition num (z : Z) : PyVal := VNum (inject_Z z).

(** *** Fixed window *)

(** Lines 105-116 of [_check_fixed_window]: the window boundary, the renewal
    of a missing or stale counter, and the fields of the counter the limit
    tests read.  [now] is [int(time.time())]. *)
Definition fixed_window_refresh (self : RateLimiter) (counter_key : string)
    (rule : RateLimitRule) (now : Z) : RateLimiter * (PyExn + Z * Z * Z) :=
  match Py.mod_ now (period_seconds rule) with
  | None => (self, inl ZeroDivisionError)
  | Some m =>
    let window_start := now - m in
    let reset_time := window_start + period_seconds rule in
    let renewed :=
      (set_counter self counter_key (FixedWindowCounter 0 window_start reset_time),
       inr (0, window_start, reset_time)) in
    match counters self !! counter_key with
    | Some (FixedWindowCounter count window reset_time) =>
      if window =? window_start then (self, inr (count, window, reset_time))
      else renewed
    | _ => renewed
    end
  end.

Definition _check_fixed_window (self : RateLimiter) (key identifier : string)
    (rule : RateLimitRule) (cost : Z) (clock : Q) : RateLimiter * Outcome :=
  let counter_key := counter_key key identifier in
  let now := Py.int clock in
  match fixed_window_refresh self counter_key rule now with
  | (self, inl e) => (self, Raise e)
  | (self, inr (count, window, reset_time)) =>
    let regular_limit :=
      (* Check regular limit *)
      let new_count := count + cost in
      if new_count >? requests_per_period rule then
        (self, Return false
           [("allowed", VBool false); ("reason", VStr "rate_limit_exceeded");
            ("reset_in", num (reset_time - now)); ("current", num count);
            ("limit", num (requests_per_period rule))])
      else
        (* Update counter *)
        (set_counter self counter_key (FixedWindowCounter new_count window reset_time),
         Return true
           [("allowed", VBool true);
            ("remaining", num (requests_per_period rule - new_count));
            ("reset_in", num (reset_time - now))]) in
    (* Check burst limit *)
    match Py.truthy (burst_limit rule) with
    | Some burst =>
      if count >=? burst then
        (self, Return false
           [("allowed", VBool false); ("reason", VStr "burst_limit_exceeded");
            ("reset_in", num (reset_time - now)); ("current", num count);
            ("limit", num burst)])
      else regular_limit
    | None => regular_limit
    end
  end.

(** *** Sliding window *)

(** Lines 151-164 of [_check_sliding_window]: lazy creation and pruning.  The
    pruned list and its length are stored before the limit is tested. *)
Definition sliding_window_refresh (self : RateLimiter) (counter_key : string)
    (rule : RateLimitRule) (now : Q) : RateLimiter * (PyExn + list Q * Z) :=
  let window_start := (now - inject_Z (period_seconds rule))%Q in
  let self :=
    match counters self !! counter_key with
    | None => set_counter self counter_key (SlidingWindowCounter [] 0)
    | Some _ => self
    end in
  match counters self !! counter_key with
  | Some (SlidingWindowCounter timestamps _) =>
    let timestamps := List.filter (fun ts => Py.gt ts window_start) timestamps in
    let count := Z.of_nat (length timestamps) in
    (set_counter self counter_key (SlidingWindowCounter timestamps count),
     inr (timestamps, count))
  | _ => (self, inl (KeyError "timestamps"))
  end.

Definition _check_sliding_window (self : RateLimiter) (key identifier : string)
    (rule : RateLimitRule) (cost : Z) (clock : Q) : RateLimiter * Outcome :=
  let counter_key := counter_key key identifier in
  let now := clock in
  let period := inject_Z (period_seconds rule) in
  match sliding_window_refresh self counter_key rule now with
  | (self, inl e) => (self, Raise e)
  | (self, inr (timestamps, count)) =>
    (* Check limit *)
    if count + cost >? requests_per_period rule then
      let oldest_request :=
        match Py.min_list timestamps with Some t => t | None => now end in
      let reset_in := (oldest_request + period - now)%Q in
      (self, Return false
         [("allowed", VBool false); ("reason", VStr "rate_limit_exceeded");
          ("reset_in", VNum (Qmax 0 reset_in)); ("current", num count);
          ("limit", num (requests_per_period rule))])
    else
      (* Add new request(s) *)
      let timestamps := timestamps ++ repeat now (Py.range_len cost) in
      let count := count + cost in
      let self := set_counter self counter_key (SlidingWindowCounter timestamps count) in
      (* Calculate remaining *)
      let '(next_reset, remaining) :=
        match Py.min_list timestamps with
        | Some t => ((t + period)%Q, requests_per_period rule - count)
        | None => ((now + period)%Q, requests_per_period rule)
        end in
      (self, Return true
         [("allowed", VBool true); ("remaining", num remaining);
          ("reset_in", VNum (next_reset - now)%Q)])
  end.

(** *** Token bucket *)

(** Lines 201-218 of [_check_token_bucket]: lazy creation with a full bucket,
    then the refill, capped at capacity.  A zero period raises after the
    counter has been created. *)
Definition token_bucket_refresh (self : RateLimiter) (counter_key : string)
    (rule : RateLimitRule) (now : Q) : RateLimiter * (PyExn + Q * Q) :=
  let self :=
    match counters self !! counter_key with
    | None =>
      set_counter self counter_key
        (TokenBucketCounter (inject_Z (bucket_capacity rule)) now)
    | Some _ => self
    end in
  match counters self !! counter_key with
  | Some (TokenBucketCounter tokens last_update) =>
    (* Add new tokens *)
    let time_passed := (now - last_update)%Q in
    match rate rule with
    | None => (self, inl ZeroDivisionError)
    | Some r =>
      let tokens_to_add := (time_passed * r)%Q in
      let tokens :=
        Qmin (inject_Z (bucket_capacity rule)) (tokens + tokens_to_add) in
      (set_counter self counter_key (TokenBucketCounter tokens now),
       inr (tokens, now))
    end
  | _ => (self, inl (KeyError "last_update"))
  end.

Definition _check_token_bucket (self : RateLimiter) (key identifier : string)
    (rule : RateLimitRule) (cost : Z) (clock : Q) : RateLimiter * Outcome :=
  let counter_key := counter_key key identifier in
  let now := clock in
  match token_bucket_refresh self counter_key rule now with
  | (self, inl e) => (self, Raise e)
  | (self, inr (tokens, last_update)) =>
    (* Check if enough tokens *)
    if Py.gt (inject_Z cost) tokens then
      let tokens_needed := (inject_Z cost - tokens)%Q in
      match rate rule with
      | None => (self, Raise ZeroDivisionError)
      | Some r =>
        match Py.div tokens_needed r with
        | None => (self, Raise ZeroDivisionError)
        | Some time_needed =>
          (self, Return false
             [("allowed", VBool false); ("reason", VStr "insufficient_tokens");
              ("wait_time", VNum time_needed); ("current_tokens", VNum tokens);
              ("tokens_needed", num cost)])
        end
      end
    else
      (* Consume tokens *)
      let tokens := (tokens - inject_Z cost)%Q in
      let self := set_counter self counter_key (TokenBucketCounter tokens last_update) in
      (* Calculate refill rate *)
      match rate rule with
      | None => (self, Raise ZeroDivisionError)
      | Some refill_rate =>
        (* [rule.burst_limit or rule.requests_per_period - counter['tokens']]:
           the subtraction binds tighter than [or]. *)
        let numerator :=
          match Py.truthy (burst_limit rule) with
          | Some burst => inject_Z burst
          | None => (inject_Z (requests_per_period rule) - tokens)%Q
          end in
        match Py.div numerator refill_rate with
        | None => (self, Raise ZeroDivisionError)
        | Some time_to_full =>
          (self, Return true
             [("allowed", VBool true); ("tokens_remaining", VNum tokens);
              ("refill_rate", VNum refill_rate); ("time_to_full", VNum time_to_full)])
        end
      end
  end.

(** *** Leaky bucket *)

(** Lines 251-266 of [_check_leaky_bucket]: lazy creation with an empty
    bucket, then the leak, floored at zero. *)
Definition leaky_bucket_refresh (self : RateLimiter) (counter_key : string)
    (rule : RateLimitRule) (now : Q) : RateLimiter * (PyExn + Q * Q * Z) :=
  let self :=
    match counters self !! counter_key with
    | None =>
      set_counter self counter_key
        (LeakyBucketCounter 0 now (bucket_capacity rule))
    | Some _ => self
    end in
  match counters self !! counter_key with
  | Some (LeakyBucketCounter water_level last_leak capacity) =>
    (* Leak water (process requests) *)
    let time_passed := (now - last_leak)%Q in
    match rate rule with
    | None => (self, inl ZeroDivisionError)
    | Some r =>
      let leak_amount := (time_passed * r)%Q in
      let water_level := Qmax 0 (water_level - leak_amount) in
      (set_counter self counter_key (LeakyBucketCounter water_level now capacity),
       inr (water_level, now, capacity))
    end
  | _ => (self, inl (KeyError "last_leak"))
  end.

Definition _check_leaky_bucket (self : RateLimiter) (key identifier : string)
    (rule : RateLimitRule) (cost : Z) (clock : Q) : RateLimiter * Outcome :=
  let counter_key := counter_key key identifier in
  let now := clock in
  match leaky_bucket_refresh self counter_key rule now with
  | (self, inl e) => (self, Raise e)
  | (self, inr (water_level, last_leak, capacity)) =>
    (* Check if bucket has capacity *)
    if Py.gt (water_level + inject_Z cost) (inject_Z capacity) then
      let overflow := ((water_level + inject_Z cost) - inject_Z capacity)%Q in
      match rate rule with
      | None => (self, Raise ZeroDivisionError)
      | Some r =>
        match Py.div overflow r with
        | None => (self, Raise ZeroDivisionError)
        | Some time_needed =>
          (self, Return false
             [("allowed", VBool false); ("reason", VStr "bucket_overflow");
              ("wait_time", VNum time_needed); ("current_level", VNum water_level);
              ("capacity", num capacity)])
        end
      end
    else
      (* Add water (add request) *)
      let water_level := (water_level + inject_Z cost)%Q in
      let self :=
        set_counter self counter_key (LeakyBucketCounter water_level last_leak capacity) in
      (* Calculate drain time *)
      match rate rule with
      | None => (self, Raise ZeroDivisionError)
      | Some r =>
        match Py.div water_level r with
        | None => (self, Raise ZeroDivisionError)
        | Some drain_time =>
          (self, Return true
             [("allowed", VBool true); ("water_level", VNum water_level);
              ("drain_time", VNum drain_time);
              ("capacity_remaining", VNum (inject_Z capacity - water_level)%Q)])
        end
      end
  end.

(** *** Entry point *)

(** [self.locks[lock_key]]: the defaultdict creates the lock on first use. *)
Definition take_lock (self : RateLimiter) (lock_key : string) : RateLimiter :=
  {| rules := rules self; counters := counters self;
     locks := {[lock_key]} ∪ locks self |}.

(** The [if]/[elif] chain of [check_limit], run under the pair's lock. *)
Definition dispatch (self : RateLimiter) (key identifier : string)
    (rule : RateLimitRule) (cost : Z) (clock : Q) : RateLimiter * Outcome :=
  match strategy rule with
  | FIXED_WINDOW => _check_fixed_window self key identifier rule cost clock
  | SLIDING_WINDOW => _check_sliding_window self key identifier rule cost clock
  | TOKEN_BUCKET => _check_token_bucket self key identifier rule cost clock
  | LEAKY_BUCKET => _check_leaky_bucket self key identifier rule cost clock
  end.

(** [check_limit(key, identifier, cost=1)]; an omitted [cost] is [None]. *)
Definition check_limit (self : RateLimiter) (key identifier : string)
    (cost : option Z) (clock : Q) : RateLimiter * Outcome :=
  let cost := default 1 cost in
  match rules self !! key with
  | None => (self, Return true [("allowed", VBool true); ("reason", VStr "no_rule")])
  | Some rule =>
    let lock_key := counter_key key identifier in
    dispatch (take_lock self lock_key) key identifier rule cost clock
  end.

(** *** Reset and cleanup *)

Definition reset_limit (self : RateLimiter) (key identifier : string) : RateLimiter :=
  let counter_key := counter_key key identifier in
  match counters self !! counter_key with
  | Some _ =>
    {| rules := rules self; counters := delete counter_key (counters self);
       locks := locks self |}
  | None => self
  end.

(** The test of the sweep's loop body: the entry has a [last_update] (else a
    [last_leak]) field and it is older than [max_age_seconds]. *)
Definition sweep_selects (now : Q) (max_age_seconds : Z) (counter : Counter) : bool :=
  match counter with
  | TokenBucketCounter _ last_update =>
    Py.gt (now - last_update)%Q (inject_Z max_age_seconds)
  | LeakyBucketCounter _ last_leak _ =>
    Py.gt (now - last_leak)%Q (inject_Z max_age_seconds)
  | _ => false
  end.

(** [cleanup_old_entries(max_age_seconds=86400)] *)
Definition cleanup_old_entries (self : RateLimiter) (max_age_seconds : option Z)
    (clock : Q) : RateLimiter :=
  let max_age_seconds := default 86400 max_age_seconds in
  let now := clock in
  let keys_to_delete :=
    (List.filter (fun kc => sweep_selects now max_age_seconds (snd kc))
       (map_to_list (counters self))).*1 in
  {| rules := rules self;
     counters := foldl (fun cs key => delete key cs) (counters self) keys_to_delete;
     locks := locks self |}.

(** ** Observations used by the statements *)

(** The counter a check made at [clock] tests its limit against: the stored
    counter after the window roll-over, the pruning, the refill or the leak.
    [None] when that phase raises. *)
Definition refreshed (self : RateLimiter) (key identifier : string)
    (rule : RateLimitRule) (clock : Q) : option Counter :=
  let ck := counter_key key identifier in
  match strategy rule with
  | FIXED_WINDOW =>
    match snd (fixed_window_refresh self ck rule (Py.int clock)) with
    | inr (count, window, reset_time) => Some (FixedWindowCounter count window reset_time)
    | inl _ => None
    end
  | SLIDING_WINDOW =>
    match snd (sliding_window_refresh self ck rule clock) with
    | inr (timestamps, count) => Some (SlidingWindowCounter timestamps count)
    | inl _ => None
    end
  | TOKEN_BUCKET =>
    match snd (token_bucket_refresh self ck rule clock) with
    | inr (tokens, last_update) => Some (TokenBucketCounter tokens last_update)
    | inl _ => None
    end
  | LEAKY_BUCKET =>
    match snd (leaky_bucket_refresh self ck rule clock) with
    | inr (water_level, last_leak, capacity) =>
      Some (LeakyBucketCounter water_level last_leak capacity)
    | inl _ => None
    end
  end.





(** The states after each call of a sequence of checks on one pair. *)
Fixpoint run_checks (self : RateLimiter) (key identifier : string)
    (calls : list (Z * Q)) : list RateLimiter :=
  match calls with
  | [] => []
  | (cost, clock) :: calls =>
    let self := fst (check_limit self key identifier (Some cost) clock) in
    self :: run_checks self key identifier calls
  end.

(** The stored level of a bucket counter lies between 0 and the capacity. *)
Definition level_in_bounds (rule : RateLimitRule) (c : Counter) : Prop :=
  match c with
  | TokenBucketCounter tokens _ =>
    (0 <= tokens /\ tokens <= inject_Z (bucket_capacity rule))%Q
  | LeakyBucketCounter water_level _ _ =>
    (0 <= water_level /\ water_level <= inject_Z (bucket_capacity rule))%Q
  | _ => False
  end.

(** Two limiters agree on the slot of one pair. *)
Definition same_slot (ck : string) (s1 s2 : RateLimiter) : Prop :=
  counters s1 !! ck = counters s2 !! ck.

(** The number stored in a diagnostics dict under a key. *)
Definition info_num (k : string) (o : Outcome) : option Q :=
  match o with
  | Return _ info =>
    match info_get k info with Some (VNum q) => Some q | _ => None end
  | Raise _ => None
  end.

(** The data-model invariant of a rule: positive quota and period, and a
    burst limit that, when present, is not negative. *)
Definition valid_rule (rule : RateLimitRule) : Prop :=
  0 < requests_per_period rule ∧ 0 < period_seconds rule ∧
  ∀ burst, burst_limit rule = Some burst → 0 ≤ burst.

(** A bucket counter created under [rule] and last touched no later than
    [now]: its level is within bounds, and a leaky bucket carries the
    capacity of the rule. *)
Definition bucket_inv (rule : RateLimitRule) (now : Q) (c : Counter) : Prop :=
  match strategy rule, c with
  | TOKEN_BUCKET, TokenBucketCounter tokens last_update =>
    (0 <= tokens ∧ tokens <= inject_Z (bucket_capacity rule) ∧ last_update <= now)%Q
  | LEAKY_BUCKET, LeakyBucketCounter water_level last_leak capacity =>
    (0 <= water_level ∧ water_level <= inject_Z (bucket_capacity rule) ∧
     last_leak <= now)%Q ∧ capacity = bucket_capacity rule
  | _, _ => False
  end.

(** The pair has no counter yet, or one satisfying [bucket_inv]. *)
Definition slot_ready (rule : RateLimitRule) (now : Q) (slot : option Counter) : Prop :=
  match slot with
  | None => True
  | Some c => bucket_inv rule now c
  end.

(** ** Concrete limiters used as test inputs *)

(** A fixed-window rule that charges 5 per request on paper. *)
Definition rule_cost5 : RateLimitRule := mkRule FIXED_WINDOW 10 60 None 5.
Definition limiter_cost5 : RateLimiter := add_rule new_limiter "k" rule_cost5.

(** A token-bucket rule with a zero period. *)
Definition rule_period0 : RateLimitRule := mkRule TOKEN_BUCKET 10 0 None 1.

(** The default rules, with a partly drained token bucket stored for the
    pair (["user:command"], ["u"]). *)
Definition limiter_used : RateLimiter :=
  set_counter (add_default_rules new_limiter) "user:command:u"
    (TokenBucketCounter 17 0).

(** A fixed-window rule whose burst limit is stricter than its quota, and a
    limiter in which the pair (["k"], ["u"]) has used five requests of the
    window that starts at 0. *)
Definition rule_burst5 : RateLimitRule := mkRule FIXED_WINDOW 100 60 (Some 5) 1.
Definition limiter_at_burst : RateLimiter :=
  Nat.iter 5 (fun s => fst (check_limit s "k" "u" (Some 1) 0))
    (add_rule new_limiter "k" rule_burst5).

(** The sliding-window rule of the specification's example: 3 per 60 s. *)
Definition rule_sliding3 : RateLimitRule := mkRule SLIDING_WINDOW 3 60 None 1.
Definition limiter_sliding3 : RateLimiter := add_rule new_limiter "k" rule_sliding3.

(** The default rule of ["user:command"]. *)
Definition rule_command : RateLimitRule := mkRule TOKEN_BUCKET 10 60 (Some 20) 1.

(** ** Usage introspection and statistics *)

(** Values of the dict [get_usage] returns: besides scalars, the list of
    timestamps and [None] (an absent burst limit). *)
Inductive PyObj :=
| ONone
| OVal (v : PyVal)
| OList (l : list Q).

Definition onum (z : Z) : PyObj := OVal (num z).

(** [rule.strategy.value] *)
Definition strategy_value (s : RateLimitStrategy) : string :=
  match s with
  | FIXED_WINDOW => "fixed_window"
  | SLIDING_WINDOW => "sliding_window"
  | TOKEN_BUCKET => "token_bucket"
  | LEAKY_BUCKET => "leaky_bucket"
  end.

(** [counter.get(field, default)] for the fields [get_usage] reads. *)
Definition get_count (c : Counter) : Z :=
  match c with
  | FixedWindowCounter count _ _ | SlidingWindowCounter _ count => count
  | _ => 0
  end.

Definition get_reset_time (c : Counter) : Z :=
  match c with FixedWindowCounter _ _ reset_time => reset_time | _ => 0 end.

Definition get_timestamps (c : Counter) : list Q :=
  match c with SlidingWindowCounter timestamps _ => timestamps | _ => [] end.

Definition get_tokens (c : Counter) : Q :=
  match c with TokenBucketCounter tokens _ => tokens | _ => 0%Q end.

Definition get_water_level (c : Counter) : Q :=
  match c with LeakyBucketCounter water_level _ _ => water_level | _ => 0%Q end.

Definition get_capacity (c : Counter) : Z :=
  match c with LeakyBucketCounter _ _ capacity => capacity | _ => 0 end.

(** [get_usage(key, identifier)]; the clock is read in the fixed-window
    branch only.  A rule object is always truthy, so [if not rule] tests
    for a missing rule. *)
Definition get_usage (self : RateLimiter) (key identifier : string) (clock : Q)
    : option (list (string * PyObj)) :=
  let counter_key := counter_key key identifier in
  match counters self !! counter_key with
  | None => None
  | Some counter =>
    match rules self !! key with
    | None => None
    | Some rule =>
      let info :=
        [("key", OVal (VStr key)); ("identifier", OVal (VStr identifier));
         ("strategy", OVal (VStr (strategy_value (strategy rule))));
         ("limit", onum (requests_per_period rule));
         ("period", onum (period_seconds rule))] in
      Some (info ++
        match strategy rule with
        | FIXED_WINDOW =>
          [("current_count", onum (get_count counter));
           ("window_reset", OVal (VNum (inject_Z (get_reset_time counter) - clock)%Q))]
        | SLIDING_WINDOW =>
          [("current_count", onum (get_count counter));
           ("request_timestamps", OList (get_timestamps counter))]
        | TOKEN_BUCKET =>
          [("tokens", OVal (VNum (get_tokens counter)));
           ("burst_limit",
            match burst_limit rule with Some b => onum b | None => ONone end)]
        | LEAKY_BUCKET =>
          [("water_level", OVal (VNum (get_water_level counter)));
           ("capacity", onum (get_capacity counter))]
        end)
    end
  end.

Fixpoint usage_get (k : string) (i : list (string * PyObj)) : option PyObj :=
  match i with
  | [] => None
  | (k', v) :: i' => if String.eqb k k' then Some v else usage_get k i'
  end.

(** The loop of [get_global_stats]: a counter with a ['count'] field adds
    its count to the total and one to the number of active limits. *)
Definition stats_step (counter : Counter) (acc : Z * Z) : Z * Z :=
  match counter with
  | FixedWindowCounter count _ _ | SlidingWindowCounter _ count =>
    (acc.1 + count, acc.2 + 1)
  | _ => acc
  end.

(** [get_global_stats()].  [repr_len] stands for [len(str(...))], the length
    of Python's rendering of the counters dict, which is not modelled. *)
Definition get_global_stats (repr_len : gmap string Counter → Z)
    (self : RateLimiter) : Info :=
  let '(total_requests, active_limits) :=
    map_fold (λ _ counter acc, stats_step counter acc) (0, 0) (counters self) in
  [("total_requests_tracked", num total_requests);
   ("active_rate_limits", num active_limits);
   ("total_rules", num (Z.of_nat (size (rules self))));
   ("memory_usage", num (repr_len (counters self)))].

(** ** Further observations *)

(** The strategy whose dict literal built a counter. *)
Definition shape_of (c : Counter) : RateLimitStrategy :=
  match c with
  | FixedWindowCounter _ _ _ => FIXED_WINDOW
  | SlidingWindowCounter _ _ => SLIDING_WINDOW
  | TokenBucketCounter _ _ => TOKEN_BUCKET
  | LeakyBucketCounter _ _ _ => LEAKY_BUCKET
  end.


(** The boundary of the fixed window that contains [int(clock)]. *)
Definition window_boundary (rule : RateLimitRule) (clock : Q) : Z :=
  Py.int clock - Py.int clock mod period_seconds rule.

(** The slot holds nothing a fixed-window check at [clock] would keep. *)
Definition fixed_window_stale (rule : RateLimitRule) (clock : Q)
    (slot : option Counter) : Prop :=
  match slot with
  | Some (FixedWindowCounter _ window _) => window ≠ window_boundary rule clock
  | _ => True
  end.

(** A fixed-window counter whose window starts on a multiple of the period
    and ends one period later. *)
Definition fixed_window_aligned (rule : RateLimitRule) (slot : option Counter) : Prop :=
  match slot with
  | Some (FixedWindowCounter _ window reset_time) =>
    window mod period_seconds rule = 0 ∧ reset_time = window + period_seconds rule
  | Some _ => False
  | None => True
  end.

(** A window counter that respects the quota of [rule]. *)
Definition within_quota (rule : RateLimitRule) (slot : option Counter) : Prop :=
  match slot with
  | Some (FixedWindowCounter count _ _) => count ≤ requests_per_period rule
  | Some (SlidingWindowCounter timestamps count) =>
    Z.of_nat (length timestamps) ≤ requests_per_period rule ∧
    count ≤ requests_per_period rule
  | _ => True
  end.

(** The outcome is a returned pair, not an exception. *)
Definition returned (o : Outcome) : Prop :=
  match o with Return _ _ => True | Raise _ => False end.




(** ** Basic facts *)

Section Store.
Context (self : RateLimiter) (k : string) (c : Counter).

Lemma counters_set_counter_eq : counters (set_counter self k c) !! k = Some c.
Proof. apply lookup_insert_eq. Qed.

Lemma counters_set_counter_ne k' :
  k ≠ k' → counters (set_counter self k c) !! k' = counters self !! k'.
Proof. intros; by apply lookup_insert_ne. Qed.

Lemma rules_set_counter : rules (set_counter self k c) = rules self.
Proof. reflexivity. Qed.
End Store.

Lemma Py_gt_true a b : Py.gt a b = true ↔ (b < a)%Q.
Proof.
  unfold Py.gt. rewrite negb_true_iff, <- not_true_iff_false, Qle_bool_iff.
  split; [apply Qnot_le_lt | apply Qlt_not_le].
Qed.

Lemma Py_gt_false a b : Py.gt a b = false ↔ (a <= b)%Q.
Proof. unfold Py.gt. by rewrite negb_false_iff, Qle_bool_iff. Qed.

Lemma Py_div_Some a b : ¬ (b == 0)%Q → Py.div a b = Some (a / b)%Q.
Proof.
  intros Hb. unfold Py.div.
  destruct (Qeq_bool b 0) eqn:E; [|done].
  by apply Qeq_bool_iff in E.
Qed.

Lemma Py_div_inv a b q : Py.div a b = Some q → ¬ (b == 0)%Q ∧ q = (a / b)%Q.
Proof.
  unfold Py.div. destruct (Qeq_bool b 0) eqn:E; [done|].
  intros [= <-]. split; [|done]. intros Hb. apply Qeq_bool_iff in Hb. congruence.
Qed.

Lemma inject_Z_nonzero z : z ≠ 0 → ¬ (inject_Z z == 0)%Q.
Proof. intros Hz Hq. apply Hz. unfold Qeq in Hq; simpl in Hq. lia. Qed.

Lemma rate_Some rule :
  period_seconds rule ≠ 0 →
  rate rule = Some (inject_Z (requests_per_period rule) / inject_Z (period_seconds rule))%Q.
Proof. intros Hp. apply Py_div_Some. by apply inject_Z_nonzero. Qed.

Lemma rate_nonzero rule r :
  requests_per_period rule ≠ 0 → rate rule = Some r → ¬ (r == 0)%Q.
Proof.
  intros Hq Hr. apply Py_div_inv in Hr as [Hp ->]. intros H0.
  apply (inject_Z_nonzero _ Hq).
  rewrite <- (Qmult_div_r (inject_Z (requests_per_period rule)) _ Hp).
  rewrite H0. ring.
Qed.

Lemma rate_positive rule r :
  0 < requests_per_period rule → 0 < period_seconds rule →
  rate rule = Some r → (0 < r)%Q.
Proof.
  intros Hq Hp Hr. apply Py_div_inv in Hr as [_ ->].
  apply Qlt_shift_div_l.
  - change 0%Q with (inject_Z 0). by rewrite <- Zlt_Qlt.
  - rewrite Qmult_0_l. change 0%Q with (inject_Z 0). by rewrite <- Zlt_Qlt.
Qed.

(** ** Locality: a check reads and writes one counter slot only *)

Ltac unfold_refresh :=
  unfold fixed_window_refresh, sliding_window_refresh,
    token_bucket_refresh, leaky_bucket_refresh.

Ltac unfold_checks :=
  unfold dispatch, _check_fixed_window, _check_sliding_window,
    _check_token_bucket, _check_leaky_bucket.

(** Case analysis along the branches of a check, innermost scrutinee first. *)
Ltac split_checks :=
  repeat (simpl; rewrite ?counters_set_counter_eq, ?lookup_insert_eq;
          match goal with
          | |- context [match ?x with _ => _ end] =>
            lazymatch x with
            | context [match _ with _ => _ end] => fail
            | _ => destruct x eqn:?
            end
          end).

Lemma same_slot_set ck s1 s2 c : same_slot ck (set_counter s1 ck c) (set_counter s2 ck c).
Proof. unfold same_slot. by rewrite !counters_set_counter_eq. Qed.

Ltac refresh_local :=
  let Heq := fresh "Heq" in let E := fresh "E" in
  intros Heq; unfold same_slot in *; unfold_refresh; cbv zeta;
  match goal with
  | |- context [counters ?s2 !! ?ck] =>
    match type of Heq with _ = counters s2 !! ck => idtac end;
    destruct (counters s2 !! ck) as [[]|] eqn:E
  end;
  repeat (repeat (progress (simpl; rewrite ?counters_set_counter_eq, ?lookup_insert_eq, ?Heq, ?E));
          match goal with
          | |- context [match ?x with _ => _ end] =>
            lazymatch x with
            | context [match _ with _ => _ end] => fail
            | _ => destruct x eqn:?
            end
          end);
  repeat (progress (simpl; rewrite ?lookup_insert_eq, ?Heq, ?E));
  split; congruence.

Lemma fixed_window_refresh_local s1 s2 ck rule now :
  same_slot ck s1 s2 →
  snd (fixed_window_refresh s1 ck rule now) = snd (fixed_window_refresh s2 ck rule now) ∧
  same_slot ck (fst (fixed_window_refresh s1 ck rule now))
    (fst (fixed_window_refresh s2 ck rule now)).
Proof. refresh_local. Qed.

Lemma sliding_window_refresh_local s1 s2 ck rule now :
  same_slot ck s1 s2 →
  snd (sliding_window_refresh s1 ck rule now) = snd (sliding_window_refresh s2 ck rule now) ∧
  same_slot ck (fst (sliding_window_refresh s1 ck rule now))
    (fst (sliding_window_refresh s2 ck rule now)).
Proof. refresh_local. Qed.

Lemma token_bucket_refresh_local s1 s2 ck rule now :
  same_slot ck s1 s2 →
  snd (token_bucket_refresh s1 ck rule now) = snd (token_bucket_refresh s2 ck rule now) ∧
  same_slot ck (fst (token_bucket_refresh s1 ck rule now))
    (fst (token_bucket_refresh s2 ck rule now)).
Proof. refresh_local. Qed.

Lemma leaky_bucket_refresh_local s1 s2 ck rule now :
  same_slot ck s1 s2 →
  snd (leaky_bucket_refresh s1 ck rule now) = snd (leaky_bucket_refresh s2 ck rule now) ∧
  same_slot ck (fst (leaky_bucket_refresh s1 ck rule now))
    (fst (leaky_bucket_refresh s2 ck rule now)).
Proof. refresh_local. Qed.

(** Each check, hence the dispatch, depends on the limiter through the slot of
    its pair only, and agrees on that slot afterwards. *)
Lemma dispatch_local s1 s2 key identifier rule cost clock :
  same_slot (counter_key key identifier) s1 s2 →
  snd (dispatch s1 key identifier rule cost clock)
    = snd (dispatch s2 key identifier rule cost clock) ∧
  same_slot (counter_key key identifier)
    (fst (dispatch s1 key identifier rule cost clock))
    (fst (dispatch s2 key identifier rule cost clock)).
Proof.
  intros Hslot. unfold_checks. destruct (strategy rule).
  - destruct (fixed_window_refresh_local _ _ _ rule (Py.int clock) Hslot) as [Ho Hs].
    destruct (fixed_window_refresh s1 _ _ _) as [t1 r1],
             (fixed_window_refresh s2 _ _ _) as [t2 r2]; simpl in Ho, Hs; subst r2.
    destruct r1 as [e|[[count window] reset_time]]; [done|].
    split_checks; split; try done; apply same_slot_set.
  - destruct (sliding_window_refresh_local _ _ _ rule clock Hslot) as [Ho Hs].
    destruct (sliding_window_refresh s1 _ _ _) as [t1 r1],
             (sliding_window_refresh s2 _ _ _) as [t2 r2]; simpl in Ho, Hs; subst r2.
    destruct r1 as [e|[timestamps count]]; [done|].
    split_checks; split; try done; apply same_slot_set.
  - destruct (token_bucket_refresh_local _ _ _ rule clock Hslot) as [Ho Hs].
    destruct (token_bucket_refresh s1 _ _ _) as [t1 r1],
             (token_bucket_refresh s2 _ _ _) as [t2 r2]; simpl in Ho, Hs; subst r2.
    destruct r1 as [e|[tokens last_update]]; [done|].
    split_checks; split; try done; apply same_slot_set.
  - destruct (leaky_bucket_refresh_local _ _ _ rule clock Hslot) as [Ho Hs].
    destruct (leaky_bucket_refresh s1 _ _ _) as [t1 r1],
             (leaky_bucket_refresh s2 _ _ _) as [t2 r2]; simpl in Ho, Hs; subst r2.
    destruct r1 as [e|[[water_level last_leak] capacity]]; [done|].
    split_checks; split; try done; apply same_slot_set.
Qed.

(** What a check leaves alone: the rules, the locks and every other slot. *)
Lemma dispatch_frame self key identifier rule cost clock :
  let self' := fst (dispatch self key identifier rule cost clock) in
  rules self' = rules self ∧ locks self' = locks self ∧
  ∀ k, k ≠ counter_key key identifier → counters self' !! k = counters self !! k.
Proof.
  unfold_checks. unfold_refresh. destruct (strategy rule);
    split_checks; simpl; repeat split; try done;
    intros k Hk; rewrite ?lookup_insert_ne; done.
Qed.

Lemma check_limit_frame self key identifier cost clock :
  let self' := fst (check_limit self key identifier cost clock) in
  rules self' = rules self ∧
  ∀ k, k ≠ counter_key key identifier → counters self' !! k = counters self !! k.
Proof.
  unfold check_limit. destruct (rules self !! key) as [rule|]; [|done].
  pose proof (dispatch_frame (take_lock self (counter_key key identifier))
                key identifier rule (default 1 cost) clock) as (Hr & _ & Hc).
  split; [exact Hr | exact Hc].
Qed.

(** ** Unregistered keys *)

(** C2: for a key with no registered rule, whatever the identifier and the
    cost (given or omitted), [check_limit] returns [allowed = True] with
    reason ["no_rule"] and leaves the limiter, hence its counters, as it
    was: no counter is created for the pair. *)
Theorem check_limit_no_rule self key identifier cost clock :
  rules self !! key = None →
  check_limit self key identifier cost clock
    = (self, Return true [("allowed", VBool true); ("reason", VStr "no_rule")]).
Proof. intros Hnone. unfold check_limit. by rewrite Hnone. Qed.

Lemma check_limit_no_rule_witness :
  rules (add_default_rules new_limiter) !! "user:upload" = None ∧
  check_limit (add_default_rules new_limiter) "user:upload" "alice" (Some 7) 12
    = (add_default_rules new_limiter,
       Return true [("allowed", VBool true); ("reason", VStr "no_rule")]).
Proof.
  split; [vm_compute; reflexivity | apply check_limit_no_rule; vm_compute; reflexivity].
Defined.

(** ** The cost charged when the caller passes none *)

Lemma check_cost_per_request_unused self key identifier strat quota period burst c1 c2 cost clock :
  dispatch self key identifier (mkRule strat quota period burst c1) cost clock
  = dispatch self key identifier (mkRule strat quota period burst c2) cost clock.
Proof. destruct strat; reflexivity. Qed.

(** C3, as the code has it: a check without an explicit cost charges 1, the
    default of the [cost] parameter, and the rule's [cost_per_request] has no
    influence: two limiters whose rule for [key] differs in that field only
    give the same outcome and the same counters. *)
Theorem check_limit_omitted_cost_is_one self key identifier strat quota period burst c1 c2 clock :
  let self1 := add_rule self key (mkRule strat quota period burst c1) in
  let self2 := add_rule self key (mkRule strat quota period burst c2) in
  check_limit self1 key identifier None clock
    = check_limit self1 key identifier (Some 1) clock ∧
  snd (check_limit self1 key identifier None clock)
    = snd (check_limit self2 key identifier None clock) ∧
  counters (fst (check_limit self1 key identifier None clock))
    = counters (fst (check_limit self2 key identifier None clock)).
Proof.
  intros self1 self2. split; [reflexivity|].
  unfold check_limit, self1, self2, add_rule; simpl.
  rewrite !lookup_insert_eq.
  rewrite (check_cost_per_request_unused _ _ _ _ _ _ _ c1 c2).
  set (r := mkRule strat quota period burst c2).
  set (t1 := take_lock _ _). set (t2 := take_lock _ _).
  assert (Hslot : same_slot (counter_key key identifier) t1 t2) by reflexivity.
  destruct (dispatch_local t1 t2 key identifier r 1 clock Hslot) as [Ho Hs].
  split; [exact Ho|].
  apply map_eq; intros k.
  destruct (decide (k = counter_key key identifier)) as [->|Hk]; [exact Hs|].
  destruct (dispatch_frame t1 key identifier r 1 clock) as (_ & _ & H1).
  destruct (dispatch_frame t2 key identifier r 1 clock) as (_ & _ & H2).
  by rewrite H1, H2.
Qed.

(** C3 fails as stated: under a rule with [cost_per_request = 5] an
    omitted-cost check stores a count of 1, an explicit cost-5 check a count
    of 5. *)
Lemma omitted_cost_ignores_cost_per_request :
  rules limiter_cost5 !! "k" = Some rule_cost5 ∧
  counters (fst (check_limit limiter_cost5 "k" "u" None 0)) !! "k:u"
    = Some (FixedWindowCounter 1 0 60) ∧
  counters (fst (check_limit limiter_cost5 "k" "u"
                   (Some (cost_per_request rule_cost5)) 0)) !! "k:u"
    = Some (FixedWindowCounter 5 0 60) ∧
  check_limit limiter_cost5 "k" "u" None 0
    ≠ check_limit limiter_cost5 "k" "u" (Some (cost_per_request rule_cost5)) 0.
Proof.
  split; [vm_compute; reflexivity|]. split; [vm_compute; reflexivity|].
  split; [vm_compute; reflexivity|].
  intros H.
  apply (f_equal (λ p, counters p.1 !! "k:u")) in H.
  vm_compute in H. discriminate H.
Qed.

(** ** Rule registration *)

(** C4, as the code has it: [add_rule] performs no validation.  Whatever the
    rule, it is stored under its key (replacing a previous one), every other
    key keeps its rule, and the counters are untouched. *)
Theorem add_rule_stores_any_rule self key rule :
  rules (add_rule self key rule) !! key = Some rule ∧
  (∀ k, k ≠ key → rules (add_rule self key rule) !! k = rules self !! k) ∧
  counters (add_rule self key rule) = counters self.
Proof.
  unfold add_rule; simpl. split; [apply lookup_insert_eq|].
  split; [|done]. intros k Hk. by apply lookup_insert_ne.
Qed.

(** C4 fails as stated: a rule with a zero period is not rejected.  It is
    stored, the rule table changes, and the next check of that key raises
    [ZeroDivisionError]. *)
Lemma add_rule_accepts_zero_period :
  period_seconds rule_period0 = 0 ∧
  rules (add_rule new_limiter "k" rule_period0) !! "k" = Some rule_period0 ∧
  rules (add_rule new_limiter "k" rule_period0) ≠ rules new_limiter ∧
  snd (check_limit (add_rule new_limiter "k" rule_period0) "k" "u" None 0)
    = Raise ZeroDivisionError.
Proof.
  split; [reflexivity|]. split; [vm_compute; reflexivity|].
  split; [|vm_compute; reflexivity].
  intros H. apply (f_equal (λ m, m !! "k")) in H. vm_compute in H. discriminate H.
Qed.

(** ** Reset *)

Lemma reset_limit_slot self key identifier :
  rules (reset_limit self key identifier) = rules self ∧
  counters (reset_limit self key identifier) !! counter_key key identifier = None.
Proof.
  unfold reset_limit.
  destruct (counters self !! counter_key key identifier) eqn:E; simpl;
    [by rewrite lookup_delete_eq | done].
Qed.

(** C9: a check made right after [reset_limit] has the outcome, and leaves
    the counter of the pair in the state, of the same check made at the same
    instant on a limiter with the same rules in which the pair has no
    counter yet.  This holds for every strategy and cost, and also when the
    key has no rule. *)
Theorem reset_then_check_is_fresh self fresh key identifier cost clock :
  rules fresh = rules self →
  counters fresh !! counter_key key identifier = None →
  snd (check_limit (reset_limit self key identifier) key identifier cost clock)
    = snd (check_limit fresh key identifier cost clock) ∧
  counters (fst (check_limit (reset_limit self key identifier) key identifier cost clock))
      !! counter_key key identifier
    = counters (fst (check_limit fresh key identifier cost clock))
      !! counter_key key identifier.
Proof.
  intros Hrules Hfresh.
  destruct (reset_limit_slot self key identifier) as [Hr Hc].
  unfold check_limit. rewrite Hr, Hrules.
  destruct (rules self !! key) as [rule|]; simpl; [|by rewrite Hc, Hfresh].
  apply dispatch_local. unfold same_slot, take_lock; simpl. by rewrite Hc, Hfresh.
Qed.

Lemma reset_then_check_is_fresh_witness :
  rules (add_default_rules new_limiter) = rules limiter_used ∧
  counters (add_default_rules new_limiter) !! counter_key "user:command" "u" = None ∧
  counters limiter_used !! counter_key "user:command" "u"
    = Some (TokenBucketCounter 17 0) ∧
  snd (check_limit (reset_limit limiter_used "user:command" "u")
         "user:command" "u" (Some 2) 5)
    = snd (check_limit (add_default_rules new_limiter) "user:command" "u" (Some 2) 5) ∧
  counters (fst (check_limit (reset_limit limiter_used "user:command" "u")
                   "user:command" "u" (Some 2) 5)) !! counter_key "user:command" "u"
    = counters (fst (check_limit (add_default_rules new_limiter)
                       "user:command" "u" (Some 2) 5)) !! counter_key "user:command" "u".
Proof.
  split; [reflexivity|]. split; [vm_compute; reflexivity|].
  split; [vm_compute; reflexivity|].
  apply reset_then_check_is_fresh; [reflexivity | vm_compute; reflexivity].
Defined.

(** ** Cleanup sweep *)

Lemma foldl_delete_lookup (keys : list string) (cs : gmap string Counter) (k : string) :
  foldl (λ cs key, delete key cs) cs keys !! k
  = if decide (k ∈ keys) then None else cs !! k.
Proof.
  revert cs. induction keys as [|k' keys IH]; intros cs.
  - destruct (decide (k ∈ [])) as [Hin|]; [by inversion Hin | done].
  - change (foldl (λ cs key, delete key cs) (delete k' cs) keys !! k
            = if decide (k ∈ k' :: keys) then None else cs !! k).
    rewrite IH.
    destruct (decide (k ∈ keys)) as [Hin|Hnin];
      destruct (decide (k ∈ k' :: keys)) as [Hin'|Hnin']; try done.
    + exfalso. apply Hnin'. by right.
    + apply elem_of_cons in Hin' as [->|?]; [apply lookup_delete_eq | done].
    + apply lookup_delete_ne. intros ->. apply Hnin'. by left.
Qed.

Lemma swept_keys (P : string * Counter → bool) (cs : gmap string Counter) (k : string) :
  k ∈ (List.filter P (map_to_list cs)).*1 ↔ ∃ c, cs !! k = Some c ∧ P (k, c) = true.
Proof.
  rewrite list_elem_of_fmap. split.
  - intros [[k' c] [-> Hin]]. apply list_elem_of_In, filter_In in Hin as [Hin HP].
    apply list_elem_of_In, elem_of_map_to_list in Hin. by exists c.
  - intros (c & Hc & HP). exists (k, c). split; [done|].
    apply list_elem_of_In, filter_In. split; [|done].
    by apply list_elem_of_In, elem_of_map_to_list.
Qed.

Lemma cleanup_old_entries_lookup self max_age_seconds clock key :
  counters (cleanup_old_entries self max_age_seconds clock) !! key
  = match counters self !! key with
    | Some c =>
      if sweep_selects clock (default 86400 max_age_seconds) c then None else Some c
    | None => None
    end.
Proof.
  unfold cleanup_old_entries; simpl. rewrite foldl_delete_lookup.
  destruct (decide _) as [Hin|Hnin].
  - apply swept_keys in Hin as (c & -> & Hsel). simpl in Hsel. by rewrite Hsel.
  - destruct (counters self !! key) as [c|] eqn:Hc; [|done].
    destruct (sweep_selects _ _ c) eqn:Hsel; [|done].
    exfalso. apply Hnin, swept_keys. by exists c.
Qed.

(** C8: the sweep deletes a token-bucket entry exactly when its
    [last_update] is older than [max_age_seconds] (default 86400), a
    leaky-bucket entry exactly when its [last_leak] is; every other entry,
    in particular every fixed-window and sliding-window entry whatever its
    age, is kept as it is, no entry is created, and the rules are untouched. *)
Theorem cleanup_old_entries_exact self max_age_seconds clock key :
  let age := inject_Z (default 86400 max_age_seconds) in
  let self' := cleanup_old_entries self max_age_seconds clock in
  rules self' = rules self ∧
  match counters self !! key with
  | None => counters self' !! key = None
  | Some (TokenBucketCounter tokens last_update as c) =>
    (age < clock - last_update)%Q ∧ counters self' !! key = None ∨
    (clock - last_update <= age)%Q ∧ counters self' !! key = Some c
  | Some (LeakyBucketCounter water_level last_leak capacity as c) =>
    (age < clock - last_leak)%Q ∧ counters self' !! key = None ∨
    (clock - last_leak <= age)%Q ∧ counters self' !! key = Some c
  | Some (FixedWindowCounter _ _ _ as c) | Some (SlidingWindowCounter _ _ as c) =>
    counters self' !! key = Some c
  end.
Proof.
  intros age self'. split; [reflexivity|].
  unfold self'. rewrite cleanup_old_entries_lookup.
  destruct (counters self !! key) as [[]|]; simpl; try done.
  - destruct (Py.gt _ _) eqn:E.
    + left. by apply Py_gt_true in E.
    + right. by apply Py_gt_false in E.
  - destruct (Py.gt _ _) eqn:E.
    + left. by apply Py_gt_true in E.
    + right. by apply Py_gt_false in E.
Qed.

(** ** The refresh phase, seen from [check_limit] *)

Lemma take_lock_same_slot self lock_key ck : same_slot ck (take_lock self lock_key) self.
Proof. reflexivity. Qed.

Lemma fixed_window_refresh_stored s ck rule now s' count window reset_time :
  fixed_window_refresh s ck rule now = (s', inr (count, window, reset_time)) →
  counters s' !! ck = Some (FixedWindowCounter count window reset_time).
Proof.
  unfold fixed_window_refresh. split_checks; intros [= <- <- <- <-]; try done;
    simpl; by rewrite ?lookup_insert_eq.
Qed.

Lemma pruned_within_window (window_start : Q) (timestamps : list Q) :
  Forall (λ ts, (window_start < ts)%Q)
    (List.filter (λ ts, Py.gt ts window_start) timestamps).
Proof.
  apply Forall_forall; intros ts Hin.
  apply list_elem_of_In, filter_In in Hin as [_ Hgt]. by apply Py_gt_true in Hgt.
Qed.

Lemma sliding_window_refresh_stored s ck rule now s' timestamps count :
  sliding_window_refresh s ck rule now = (s', inr (timestamps, count)) →
  counters s' !! ck = Some (SlidingWindowCounter timestamps count) ∧
  count = Z.of_nat (length timestamps) ∧
  Forall (λ ts, (now - inject_Z (period_seconds rule) < ts)%Q) timestamps.
Proof.
  unfold sliding_window_refresh; cbv zeta.
  destruct (counters s !! ck) as [[]|] eqn:E;
    rewrite ?counters_set_counter_eq, ?E; intros [= <- <- <-];
    (split; [apply counters_set_counter_eq|]); (split; [done|]);
    first [apply pruned_within_window | apply Forall_nil_2].
Qed.

Lemma token_bucket_refresh_stored s ck rule now s' tokens last_update :
  token_bucket_refresh s ck rule now = (s', inr (tokens, last_update)) →
  counters s' !! ck = Some (TokenBucketCounter tokens last_update) ∧
  last_update = now ∧ is_Some (rate rule).
Proof.
  unfold token_bucket_refresh; cbv zeta.
  destruct (counters s !! ck) as [[]|] eqn:E;
    rewrite ?counters_set_counter_eq, ?E; try done;
    destruct (rate rule) as [r|]; try done; intros [= <- <- <-];
    (split; [apply counters_set_counter_eq|]); split; eauto.
Qed.

Lemma leaky_bucket_refresh_stored s ck rule now s' water_level last_leak capacity :
  leaky_bucket_refresh s ck rule now = (s', inr (water_level, last_leak, capacity)) →
  counters s' !! ck = Some (LeakyBucketCounter water_level last_leak capacity) ∧
  last_leak = now ∧ is_Some (rate rule).
Proof.
  unfold leaky_bucket_refresh; cbv zeta.
  destruct (counters s !! ck) as [[]|] eqn:E;
    rewrite ?counters_set_counter_eq, ?E; try done;
    destruct (rate rule) as [r|]; try done; intros [= <- <- <- <-];
    (split; [apply counters_set_counter_eq|]); split; eauto.
Qed.

(** Under [check_limit] the refresh runs on the limiter holding the lock; it
    yields the fields [refreshed] reports. *)
Lemma refreshed_fixed_window self key identifier rule clock lock_key count window reset_time :
  strategy rule = FIXED_WINDOW →
  refreshed self key identifier rule clock
    = Some (FixedWindowCounter count window reset_time) →
  ∃ s1, fixed_window_refresh (take_lock self lock_key) (counter_key key identifier)
          rule (Py.int clock) = (s1, inr (count, window, reset_time)).
Proof.
  intros Hs Hr. unfold refreshed in Hr. rewrite Hs in Hr.
  destruct (fixed_window_refresh_local (take_lock self lock_key) self
              (counter_key key identifier) rule (Py.int clock)
              (take_lock_same_slot _ _ _)) as [Ho _].
  destruct (fixed_window_refresh (take_lock self lock_key) _ _ _) as [s1 r1].
  simpl in Ho. rewrite <- Ho in Hr.
  destruct r1 as [e|[[c w] r]]; [done|]. injection Hr as -> -> ->. by exists s1.
Qed.


Lemma refreshed_token_bucket self key identifier rule clock lock_key tokens last_update :
  strategy rule = TOKEN_BUCKET →
  refreshed self key identifier rule clock
    = Some (TokenBucketCounter tokens last_update) →
  ∃ s1, token_bucket_refresh (take_lock self lock_key) (counter_key key identifier)
          rule clock = (s1, inr (tokens, last_update)).
Proof.
  intros Hs Hr. unfold refreshed in Hr. rewrite Hs in Hr.
  destruct (token_bucket_refresh_local (take_lock self lock_key) self
              (counter_key key identifier) rule clock
              (take_lock_same_slot _ _ _)) as [Ho _].
  destruct (token_bucket_refresh (take_lock self lock_key) _ _ _) as [s1 r1].
  simpl in Ho. rewrite <- Ho in Hr.
  destruct r1 as [e|[t l]]; [done|]. injection Hr as -> ->. by exists s1.
Qed.

Lemma refreshed_leaky_bucket self key identifier rule clock lock_key water_level last_leak capacity :
  strategy rule = LEAKY_BUCKET →
  refreshed self key identifier rule clock
    = Some (LeakyBucketCounter water_level last_leak capacity) →
  ∃ s1, leaky_bucket_refresh (take_lock self lock_key) (counter_key key identifier)
          rule clock = (s1, inr (water_level, last_leak, capacity)).
Proof.
  intros Hs Hr. unfold refreshed in Hr. rewrite Hs in Hr.
  destruct (leaky_bucket_refresh_local (take_lock self lock_key) self
              (counter_key key identifier) rule clock
              (take_lock_same_slot _ _ _)) as [Ho _].
  destruct (leaky_bucket_refresh (take_lock self lock_key) _ _ _) as [s1 r1].
  simpl in Ho. rewrite <- Ho in Hr.
  destruct r1 as [e|[[w l] c]]; [done|]. injection Hr as -> -> ->. by exists s1.
Qed.

(** ** Fixed window: the burst ceiling *)

(** C5: under a fixed-window rule whose [burst_limit] is set (and truthy), a
    check that finds the count of the current window at or above the burst
    limit is denied with reason ["burst_limit_exceeded"], whatever the cost,
    given or omitted.  The test reads the existing count only: the cost does
    not occur in the outcome, which reports that count and the burst limit,
    and no comparison with [requests_per_period] is made; the counter is
    left as it was. *)
Theorem fixed_window_burst_denies_before_quota
    self key identifier rule burst cost clock count window reset_time :
  rules self !! key = Some rule →
  strategy rule = FIXED_WINDOW →
  burst_limit rule = Some burst → burst ≠ 0 →
  refreshed self key identifier rule clock
    = Some (FixedWindowCounter count window reset_time) →
  burst ≤ count →
  ∃ self',
    check_limit self key identifier cost clock
      = (self', Return false
           [("allowed", VBool false); ("reason", VStr "burst_limit_exceeded");
            ("reset_in", num (reset_time - Py.int clock)); ("current", num count);
            ("limit", num burst)]) ∧
    counters self' !! counter_key key identifier
      = Some (FixedWindowCounter count window reset_time).
Proof.
  intros Hrule Hstrat Hburst Hnz Hpre Hge.
  destruct (refreshed_fixed_window _ _ _ _ _ (counter_key key identifier) _ _ _
              Hstrat Hpre) as [s1 Hs1].
  exists s1. split.
  - unfold check_limit, dispatch, _check_fixed_window. rewrite Hrule, Hstrat; cbv zeta.
    rewrite Hs1, Hburst; simpl.
    destruct (burst =? 0) eqn:E0; [lia|].
    destruct (count >=? burst) eqn:E; [done | lia].
  - by apply fixed_window_refresh_stored in Hs1.
Qed.

Lemma fixed_window_burst_denies_before_quota_witness :
  rules limiter_at_burst !! "k" = Some rule_burst5 ∧
  refreshed limiter_at_burst "k" "u" rule_burst5 30 = Some (FixedWindowCounter 5 0 60) ∧
  ∃ self',
    check_limit limiter_at_burst "k" "u" (Some 1000) 30
      = (self', Return false
           [("allowed", VBool false); ("reason", VStr "burst_limit_exceeded");
            ("reset_in", num (60 - Py.int 30)); ("current", num 5);
            ("limit", num 5)]) ∧
    counters self' !! counter_key "k" "u" = Some (FixedWindowCounter 5 0 60).
Proof.
  split; [vm_compute; reflexivity|]. split; [vm_compute; reflexivity|].
  apply (fixed_window_burst_denies_before_quota limiter_at_burst "k" "u" rule_burst5 5);
    [vm_compute; reflexivity | reflexivity | reflexivity | lia
    | vm_compute; reflexivity | lia].
Defined.

(** ** Sliding window: the diagnostics of a denial *)








(** ** Token bucket: the diagnostics of an allowed check *)

(** C7 at the default rule ["user:command"] (10 per 60 s, burst 20): the
    first cost-1 check is allowed and reports 19 tokens remaining and the
    refill rate 10/60, but a time-to-full of 120 s, which is
    [burst_limit / rate]; [(capacity - remaining) / rate] is 6 s. *)
Lemma token_bucket_time_to_full_ignores_remaining :
  let out := snd (check_limit (add_default_rules new_limiter) "user:command" "u" None 0) in
  (∃ info, out = Return true info) ∧
  (∃ tokens, info_num "tokens_remaining" out = Some tokens ∧ (tokens == 19)%Q) ∧
  (∃ refill, info_num "refill_rate" out = Some refill ∧ (refill == 10 / 60)%Q) ∧
  (∃ full, info_num "time_to_full" out = Some full ∧
           (full == 20 / (10 / 60))%Q ∧ (full == 120)%Q ∧
           ¬ (full == (20 - 19) / (10 / 60))%Q).
Proof.
  intros out.
  split; [eexists; vm_compute; reflexivity|].
  split; [eexists; split; [vm_compute; reflexivity | vm_compute; reflexivity]|].
  split; [eexists; split; [vm_compute; reflexivity | vm_compute; reflexivity]|].
  eexists; split; [vm_compute; reflexivity|].
  split; [vm_compute; reflexivity|]. split; [vm_compute; reflexivity|].
  intros H; vm_compute in H; discriminate H.
Qed.

(** In general: an allowed token-bucket check reports the tokens left after
    consumption and the rate [requests_per_period / period_seconds]; its
    [time_to_full] is [(requests_per_period - remaining) / rate] when the
    rule has no (truthy) burst limit, and [burst_limit / rate] when it has
    one. *)
Lemma token_bucket_allowed_diagnostics
    self key identifier rule cost clock tokens last_update :
  rules self !! key = Some rule →
  strategy rule = TOKEN_BUCKET →
  requests_per_period rule ≠ 0 →
  refreshed self key identifier rule clock
    = Some (TokenBucketCounter tokens last_update) →
  (inject_Z cost <= tokens)%Q →
  let remaining := (tokens - inject_Z cost)%Q in
  let refill := (inject_Z (requests_per_period rule) / inject_Z (period_seconds rule))%Q in
  snd (check_limit self key identifier (Some cost) clock)
  = Return true
      [("allowed", VBool true); ("tokens_remaining", VNum remaining);
       ("refill_rate", VNum refill);
       ("time_to_full",
        VNum (match Py.truthy (burst_limit rule) with
              | Some burst => inject_Z burst / refill
              | None => (inject_Z (requests_per_period rule) - remaining) / refill
              end)%Q)].
Proof.
  intros Hrule Hstrat Hquota Hpre Hroom remaining refill.
  destruct (refreshed_token_bucket _ _ _ _ _ (counter_key key identifier) _ _
              Hstrat Hpre) as [s1 Hs1].
  destruct (token_bucket_refresh_stored _ _ _ _ _ _ _ Hs1) as (_ & _ & [r Hr]).
  pose proof (rate_nonzero _ _ Hquota Hr) as Hr0.
  pose proof Hr as Hr'. apply Py_div_inv in Hr' as [_ ->]. fold refill in Hr, Hr0.
  unfold check_limit, dispatch, _check_token_bucket. rewrite Hrule, Hstrat; cbv zeta.
  change (default 1 (Some cost)) with cost. rewrite Hs1; cbv beta iota.
  apply Py_gt_false in Hroom. rewrite Hroom, Hr.
  destruct (Py.truthy (burst_limit rule)); by rewrite (Py_div_Some _ _ Hr0).
Qed.

(** ** Window strategies: a check within the remaining quota *)






(** ** Bucket levels stay within bounds *)

Lemma bucket_capacity_nonneg rule : valid_rule rule → 0 ≤ bucket_capacity rule.
Proof.
  intros (Hq & _ & Hb). unfold bucket_capacity, Py.or_, Py.truthy.
  destruct (burst_limit rule) as [b|] eqn:E; [|lia].
  destruct (b =? 0); [lia | by apply Hb].
Qed.

Lemma bucket_inv_later rule t t' c : (t <= t')%Q → bucket_inv rule t c → bucket_inv rule t' c.
Proof.
  unfold bucket_inv. intros Ht.
  destruct (strategy rule), c; try done; intros H; repeat split; try tauto; lra.
Qed.

Lemma bucket_inv_bounds rule t c : bucket_inv rule t c → level_in_bounds rule c.
Proof.
  unfold bucket_inv, level_in_bounds. destruct (strategy rule), c; try done; tauto.
Qed.

(** The slot a bucket check leaves behind, from the fields its refresh
    phase produced: the level moves by [cost] exactly when the check passes
    the limit test, also when the diagnostics then raise. *)
Lemma check_token_bucket_slot s key identifier rule cost clock s1 tokens last_update :
  token_bucket_refresh s (counter_key key identifier) rule clock
    = (s1, inr (tokens, last_update)) →
  counters (fst (_check_token_bucket s key identifier rule cost clock))
    !! counter_key key identifier
  = Some (TokenBucketCounter
            (if Py.gt (inject_Z cost) tokens then tokens else tokens - inject_Z cost)%Q
            last_update).
Proof.
  intros Href. pose proof (token_bucket_refresh_stored _ _ _ _ _ _ _ Href) as (Hst & _).
  unfold _check_token_bucket; cbv zeta. rewrite Href.
  destruct (Py.gt (inject_Z cost) tokens); split_checks; simpl;
    by rewrite ?lookup_insert_eq.
Qed.

Lemma check_leaky_bucket_slot s key identifier rule cost clock s1 water_level last_leak capacity :
  leaky_bucket_refresh s (counter_key key identifier) rule clock
    = (s1, inr (water_level, last_leak, capacity)) →
  counters (fst (_check_leaky_bucket s key identifier rule cost clock))
    !! counter_key key identifier
  = Some (LeakyBucketCounter
            (if Py.gt (water_level + inject_Z cost) (inject_Z capacity)
             then water_level else water_level + inject_Z cost)%Q
            last_leak capacity).
Proof.
  intros Href. pose proof (leaky_bucket_refresh_stored _ _ _ _ _ _ _ _ Href) as (Hst & _).
  unfold _check_leaky_bucket; cbv zeta. rewrite Href.
  destruct (Py.gt (water_level + inject_Z cost) (inject_Z capacity)); split_checks; simpl;
    by rewrite ?lookup_insert_eq.
Qed.

Section BucketStep.
Context (rule : RateLimitRule) (r : Q).
Hypothesis Hrate : rate rule = Some r.
Hypothesis Hr : (0 < r)%Q.
Hypothesis Hcap : (0 <= inject_Z (bucket_capacity rule))%Q.

(** Refill: the refreshed token level is within bounds. *)
Lemma token_bucket_refresh_ready s ck now :
  strategy rule = TOKEN_BUCKET →
  slot_ready rule now (counters s !! ck) →
  ∃ s1 tokens,
    token_bucket_refresh s ck rule now = (s1, inr (tokens, now)) ∧
    (0 <= tokens ∧ tokens <= inject_Z (bucket_capacity rule))%Q.
Proof.
  intros Hs Hslot. unfold token_bucket_refresh; cbv zeta.
  destruct (counters s !! ck) as [c|] eqn:E; simpl in Hslot.
  - unfold bucket_inv in Hslot. rewrite Hs in Hslot.
    destruct c as [| |tokens last_update|]; try done.
    destruct Hslot as (H0 & Hle & Hlast). rewrite E, Hrate.
    assert (0 <= (now - last_update) * r)%Q by (apply Qmult_le_0_compat; lra).
    do 2 eexists; split; [reflexivity|].
    split; [apply Q.min_glb; lra | apply Q.le_min_l].
  - rewrite counters_set_counter_eq, Hrate.
    assert (0 <= (now - now) * r)%Q by (apply Qmult_le_0_compat; lra).
    do 2 eexists; split; [reflexivity|].
    split; [apply Q.min_glb; lra | apply Q.le_min_l].
Qed.

(** Leak: the refreshed water level is within bounds and the stored
    capacity is the rule's. *)
Lemma leaky_bucket_refresh_ready s ck now :
  strategy rule = LEAKY_BUCKET →
  slot_ready rule now (counters s !! ck) →
  ∃ s1 water_level,
    leaky_bucket_refresh s ck rule now
      = (s1, inr (water_level, now, bucket_capacity rule)) ∧
    (0 <= water_level ∧ water_level <= inject_Z (bucket_capacity rule))%Q.
Proof.
  intros Hs Hslot. unfold leaky_bucket_refresh; cbv zeta.
  destruct (counters s !! ck) as [c|] eqn:E; simpl in Hslot.
  - unfold bucket_inv in Hslot. rewrite Hs in Hslot.
    destruct c as [| | |water_level last_leak capacity]; try done.
    destruct Hslot as [(H0 & Hle & Hlast) ->]. rewrite E, Hrate.
    assert (0 <= (now - last_leak) * r)%Q by (apply Qmult_le_0_compat; lra).
    do 2 eexists; split; [reflexivity|].
    split; [apply Q.le_max_l | apply Q.max_lub; lra].
  - rewrite counters_set_counter_eq, Hrate.
    assert (0 <= (now - now) * r)%Q by (apply Qmult_le_0_compat; lra).
    do 2 eexists; split; [reflexivity|].
    split; [apply Q.le_max_l | apply Q.max_lub; lra].
Qed.
End BucketStep.

(** One check of a bucket pair re-establishes the invariant at the time of
    the check, whether it is allowed or denied. *)
Lemma dispatch_bucket_inv self key identifier rule cost clock :
  strategy rule = TOKEN_BUCKET ∨ strategy rule = LEAKY_BUCKET →
  valid_rule rule →
  0 ≤ cost →
  slot_ready rule clock (counters self !! counter_key key identifier) →
  ∃ c, counters (fst (dispatch self key identifier rule cost clock))
         !! counter_key key identifier = Some c ∧
       bucket_inv rule clock c.
Proof.
  intros Hstrat Hvalid Hcost Hslot.
  pose proof (bucket_capacity_nonneg _ Hvalid) as Hcap.
  rewrite Zle_Qle in Hcap, Hcost. change (inject_Z 0) with 0%Q in Hcap, Hcost.
  destruct Hvalid as (Hq & Hp & _).
  pose proof (rate_Some rule ltac:(lia)) as Hrate.
  pose proof (rate_positive _ _ Hq Hp Hrate) as Hr.
  unfold dispatch, bucket_inv.
  destruct Hstrat as [Hs|Hs]; rewrite Hs.
  - destruct (token_bucket_refresh_ready rule _ Hrate Hr Hcap self _ clock Hs Hslot)
      as (s1 & tokens & Href & Ht0 & Ht1).
    rewrite (check_token_bucket_slot _ _ _ _ cost _ _ _ _ Href).
    eexists; split; [reflexivity|].
    destruct (Py.gt (inject_Z cost) tokens) eqn:Eg; [repeat split; lra|].
    apply Py_gt_false in Eg. repeat split; lra.
  - destruct (leaky_bucket_refresh_ready rule _ Hrate Hr Hcap self _ clock Hs Hslot)
      as (s1 & w & Href & Hw0 & Hw1).
    rewrite (check_leaky_bucket_slot _ _ _ _ cost _ _ _ _ _ Href).
    eexists; split; [reflexivity|].
    destruct (Py.gt (w + inject_Z cost) _) eqn:Eg; [repeat split; lra|].
    apply Py_gt_false in Eg. repeat split; lra.
Qed.

Lemma check_limit_registered self key identifier rule cost clock :
  rules self !! key = Some rule →
  check_limit self key identifier (Some cost) clock
  = dispatch (take_lock self (counter_key key identifier)) key identifier rule cost clock.
Proof. intros Hrule. unfold check_limit. by rewrite Hrule. Qed.

Lemma run_checks_bucket_inv key identifier rule calls : ∀ self,
  rules self !! key = Some rule →
  strategy rule = TOKEN_BUCKET ∨ strategy rule = LEAKY_BUCKET →
  valid_rule rule →
  Forall (λ call, 0 ≤ call.1) calls →
  StronglySorted Qle (calls.*2) →
  Forall (λ call, slot_ready rule call.2 (counters self !! counter_key key identifier))
    calls →
  Forall (λ s, ∃ c, counters s !! counter_key key identifier = Some c ∧
                    level_in_bounds rule c)
    (run_checks self key identifier calls).
Proof.
  induction calls as [|[cost clock] calls IH];
    intros self Hrule Hstrat Hvalid Hcosts Hsorted Hready; [constructor|].
  apply Forall_cons in Hcosts as [Hcost Hcosts].
  apply Forall_cons in Hready as [Hnow _].
  rewrite fmap_cons in Hsorted.
  apply StronglySorted_inv in Hsorted as [Hsorted Hlater].
  rewrite Forall_fmap in Hlater.
  simpl in Hcost, Hnow. simpl.
  destruct (check_limit_frame self key identifier (Some cost) clock) as [Hrules _].
  rewrite (check_limit_registered _ _ _ _ _ _ Hrule) in *.
  destruct (dispatch_bucket_inv (take_lock self (counter_key key identifier))
              key identifier rule cost clock Hstrat Hvalid Hcost Hnow)
    as (c & Hc & Hinv).
  constructor.
  - exists c. split; [exact Hc | by eapply bucket_inv_bounds].
  - apply IH; try done; [by rewrite Hrules|].
    rewrite Hc.
    eapply Forall_impl; [exact Hlater|]. intros [cost' clock'] Hle; simpl in *.
    by eapply bucket_inv_later.
Qed.

(** C10, as the code has it: under one registered, valid token-bucket or
    leaky-bucket rule, a sequence of checks of a pair that starts without a
    counter, with costs that are not negative and clock readings that do
    not decrease, leaves
    after every check, allowed or denied, a counter whose level ([tokens],
    [water_level]) lies between 0 and the capacity, [burst_limit] when it
    is set and [requests_per_period] otherwise. *)
Theorem bucket_level_stays_in_bounds self key identifier rule calls :
  rules self !! key = Some rule →
  strategy rule = TOKEN_BUCKET ∨ strategy rule = LEAKY_BUCKET →
  valid_rule rule →
  counters self !! counter_key key identifier = None →
  Forall (λ call, 0 ≤ call.1) calls →
  StronglySorted Qle (calls.*2) →
  Forall (λ s, ∃ c, counters s !! counter_key key identifier = Some c ∧
                    level_in_bounds rule c)
    (run_checks self key identifier calls).
Proof.
  intros Hrule Hstrat Hvalid Hnone Hcosts Hsorted.
  apply run_checks_bucket_inv; try done.
  rewrite Hnone. by apply Forall_true.
Qed.

Lemma bucket_level_stays_in_bounds_witness :
  rules (add_default_rules new_limiter) !! "user:command" = Some rule_command ∧
  valid_rule rule_command ∧
  counters (add_default_rules new_limiter) !! counter_key "user:command" "u" = None ∧
  Forall (λ s, ∃ c, counters s !! counter_key "user:command" "u" = Some c ∧
                    level_in_bounds rule_command c)
    (run_checks (add_default_rules new_limiter) "user:command" "u"
       [(1, 0%Q); (25, 1%Q); (2, 7%Q)]).
Proof.
  assert (Hvalid : valid_rule rule_command).
  { split; [simpl; lia|]. split; [simpl; lia|]. intros burst [= <-]. lia. }
  split; [vm_compute; reflexivity|]. split; [exact Hvalid|].
  split; [vm_compute; reflexivity|].
  apply (bucket_level_stays_in_bounds (add_default_rules new_limiter)
           "user:command" "u" rule_command [(1, 0%Q); (25, 1%Q); (2, 7%Q)]);
    [vm_compute; reflexivity | left; reflexivity | exact Hvalid
    | vm_compute; reflexivity
    | repeat constructor; simpl; lia
    | repeat constructor; unfold Qle; simpl; lia].
Defined.

(** C10 fails as stated when the clock steps back: under the default rule
    ["user:command"] (token bucket, capacity 20, 10 tokens per 60 s) a
    check of cost 20 at time 10 empties the bucket, and a check of cost 0
    read at time 0 refills it by [(0 - 10) * 10/60]: the stored [tokens] are
    [-5/3], below 0. *)
Lemma bucket_level_negative_after_clock_steps_back :
  rules (add_default_rules new_limiter) !! "user:command" = Some rule_command ∧
  counters (add_default_rules new_limiter) !! counter_key "user:command" "u" = None ∧
  Forall (λ call : Z * Q, 0 ≤ call.1) [(20, 10%Q); (0, 0%Q)] ∧
  ∃ s tokens last_update,
    last (run_checks (add_default_rules new_limiter) "user:command" "u"
            [(20, 10%Q); (0, 0%Q)]) = Some s ∧
    counters s !! counter_key "user:command" "u"
      = Some (TokenBucketCounter tokens last_update) ∧
    (tokens == (-5) # 3)%Q ∧
    ¬ level_in_bounds rule_command (TokenBucketCounter tokens last_update).
Proof.
  split; [vm_compute; reflexivity|]. split; [vm_compute; reflexivity|].
  split; [repeat constructor; simpl; lia|].
  do 3 eexists. split; [vm_compute; reflexivity|].
  split; [vm_compute; reflexivity|].
  split; [reflexivity|].
  intros [Hlow _]. revert Hlow. vm_compute. by intros H; apply H.
Qed.

(** * Further properties of the limiter *)

(** ** Fixed window: roll-over and alignment *)

Lemma fixed_window_refresh_renews s ck rule clock :
  period_seconds rule ≠ 0 →
  fixed_window_stale rule clock (counters s !! ck) →
  fixed_window_refresh s ck rule (Py.int clock)
  = (set_counter s ck
       (FixedWindowCounter 0 (window_boundary rule clock)
          (window_boundary rule clock + period_seconds rule)),
     inr (0, window_boundary rule clock,
          window_boundary rule clock + period_seconds rule)).
Proof.
  intros Hp Hstale. unfold fixed_window_refresh, Py.mod_, window_boundary in *.
  destruct (period_seconds rule =? 0) eqn:E0; [by apply Z.eqb_eq in E0|]. cbv zeta.
  destruct (counters s !! ck) as [[count window reset_time| | |]|]; try done.
  simpl in Hstale. destruct (window =? _) eqn:Ew; [by apply Z.eqb_eq in Ew | done].
Qed.

(** X1: under a fixed-window rule, a pair whose stored counter belongs to
    another window (or was built by another strategy) is checked exactly
    like a pair that has no counter: same outcome, same stored counter
    afterwards.  Nothing of the previous window carries over. *)
Theorem fixed_window_rollover_is_fresh self fresh key identifier rule cost clock :
  rules self !! key = Some rule →
  rules fresh !! key = Some rule →
  strategy rule = FIXED_WINDOW →
  period_seconds rule ≠ 0 →
  fixed_window_stale rule clock (counters self !! counter_key key identifier) →
  counters fresh !! counter_key key identifier = None →
  snd (check_limit self key identifier cost clock)
    = snd (check_limit fresh key identifier cost clock) ∧
  counters (fst (check_limit self key identifier cost clock))
      !! counter_key key identifier
    = counters (fst (check_limit fresh key identifier cost clock))
      !! counter_key key identifier.
Proof.
  intros Hr1 Hr2 Hstrat Hp Hstale Hnone.
  unfold check_limit, dispatch. rewrite Hr1, Hr2, Hstrat.
  unfold _check_fixed_window; cbv zeta.
  rewrite !fixed_window_refresh_renews;
    [|done|by unfold take_lock; simpl; rewrite Hnone|done|exact Hstale].
  cbv beta iota.
  destruct (Py.truthy (burst_limit rule)) as [b|];
    [destruct (0 >=? b)|];
    destruct (0 + default 1 cost >? requests_per_period rule);
    simpl; by rewrite ?lookup_insert_eq.
Qed.

Lemma fixed_window_rollover_is_fresh_witness :
  fixed_window_stale rule_burst5 75 (counters limiter_at_burst !! counter_key "k" "u") ∧
  snd (check_limit limiter_at_burst "k" "u" (Some 2) 75)
    = snd (check_limit (add_rule new_limiter "k" rule_burst5) "k" "u" (Some 2) 75) ∧
  counters (fst (check_limit limiter_at_burst "k" "u" (Some 2) 75))
      !! counter_key "k" "u"
    = counters (fst (check_limit (add_rule new_limiter "k" rule_burst5) "k" "u"
                       (Some 2) 75)) !! counter_key "k" "u".
Proof.
  assert (Hstale : fixed_window_stale rule_burst5 75
                     (counters limiter_at_burst !! counter_key "k" "u"))
    by (vm_compute; discriminate).
  split; [exact Hstale|].
  apply (fixed_window_rollover_is_fresh limiter_at_burst
           (add_rule new_limiter "k" rule_burst5) "k" "u" rule_burst5 (Some 2) 75);
    [vm_compute; reflexivity | vm_compute; reflexivity | reflexivity
    | simpl; lia | exact Hstale | vm_compute; reflexivity].
Defined.

Lemma window_boundary_aligned rule clock :
  0 < period_seconds rule →
  window_boundary rule clock mod period_seconds rule = 0 ∧
  window_boundary rule clock ≤ Py.int clock
    < window_boundary rule clock + period_seconds rule.
Proof.
  intros Hp. unfold window_boundary.
  pose proof (Z.mod_pos_bound (Py.int clock) _ Hp) as Hb.
  split; [|lia].
  rewrite Zminus_mod_idemp_r, Z.sub_diag. by apply Z.mod_0_l, Z.neq_sym, Z.lt_neq.
Qed.

Lemma fixed_window_slot_aligned self key identifier rule cost clock :
  rules self !! key = Some rule →
  strategy rule = FIXED_WINDOW →
  0 < period_seconds rule →
  fixed_window_aligned rule (counters self !! counter_key key identifier) →
  ∃ count window reset_time,
    counters (fst (check_limit self key identifier cost clock))
      !! counter_key key identifier
      = Some (FixedWindowCounter count window reset_time) ∧
    window mod period_seconds rule = 0 ∧
    window ≤ Py.int clock < reset_time ∧
    reset_time = window + period_seconds rule.
Proof.
  intros Hrule Hstrat Hp Hal.
  destruct (window_boundary_aligned rule clock Hp) as [Hmod Hin].
  unfold check_limit, dispatch. rewrite Hrule, Hstrat.
  unfold _check_fixed_window, fixed_window_refresh, Py.mod_; cbv zeta.
  destruct (period_seconds rule =? 0) eqn:E0; [apply Z.eqb_eq in E0; lia|].
  fold (window_boundary rule clock).
  change (counters (take_lock self (counter_key key identifier)))
    with (counters self).
  destruct (counters self !! counter_key key identifier)
    as [[count window reset_time| | |]|] eqn:E; try done.
  - destruct Hal as [Hw ->].
    destruct (window =? window_boundary rule clock) eqn:Ew.
    + apply Z.eqb_eq in Ew. subst window.
      split_checks; simpl; rewrite ?lookup_insert_eq, ?E;
        do 3 eexists; (split; [reflexivity|]); repeat split; lia.
    + split_checks; simpl; rewrite ?lookup_insert_eq;
        do 3 eexists; (split; [reflexivity|]); repeat split; lia.
  - split_checks; simpl; rewrite ?lookup_insert_eq;
      do 3 eexists; (split; [reflexivity|]); repeat split; lia.
Qed.

(** X2: with a positive period, a fixed-window check leaves a counter whose
    window starts on a multiple of the period (windows are aligned to the
    epoch, not to the first request), contains the second of the check, and
    ends one period after its start - provided the counter it found, if any,
    was itself so aligned. *)
Theorem fixed_window_aligned_to_period self key identifier rule cost clock :
  rules self !! key = Some rule →
  strategy rule = FIXED_WINDOW →
  0 < period_seconds rule →
  fixed_window_aligned rule (counters self !! counter_key key identifier) →
  ∃ count window reset_time,
    counters (fst (check_limit self key identifier cost clock))
      !! counter_key key identifier
      = Some (FixedWindowCounter count window reset_time) ∧
    window mod period_seconds rule = 0 ∧
    window ≤ Py.int clock < reset_time ∧
    reset_time = window + period_seconds rule.
Proof. apply fixed_window_slot_aligned. Qed.

Lemma fixed_window_aligned_to_period_witness :
  fixed_window_aligned rule_burst5 (counters limiter_at_burst !! counter_key "k" "u") ∧
  ∃ count window reset_time,
    counters (fst (check_limit limiter_at_burst "k" "u" (Some 1) 200))
      !! counter_key "k" "u"
      = Some (FixedWindowCounter count window reset_time) ∧
    window mod period_seconds rule_burst5 = 0 ∧
    window ≤ Py.int 200 < reset_time ∧
    reset_time = window + period_seconds rule_burst5.
Proof.
  assert (Hal : fixed_window_aligned rule_burst5
                  (counters limiter_at_burst !! counter_key "k" "u"))
    by (vm_compute; split; reflexivity).
  split; [exact Hal|].
  apply (fixed_window_aligned_to_period limiter_at_burst "k" "u" rule_burst5 (Some 1) 200);
    [vm_compute; reflexivity | reflexivity | simpl; lia | exact Hal].
Defined.

(** ** Denied checks *)

Lemma refreshed_take_lock self lock_key key identifier rule clock :
  refreshed (take_lock self lock_key) key identifier rule clock
  = refreshed self key identifier rule clock.
Proof.
  unfold refreshed. destruct (strategy rule).
  - by destruct (fixed_window_refresh_local _ _ (counter_key key identifier) rule
                   (Py.int clock) (take_lock_same_slot self lock_key _)) as [-> _].
  - by destruct (sliding_window_refresh_local _ _ (counter_key key identifier) rule
                   clock (take_lock_same_slot self lock_key _)) as [-> _].
  - by destruct (token_bucket_refresh_local _ _ (counter_key key identifier) rule
                   clock (take_lock_same_slot self lock_key _)) as [-> _].
  - by destruct (leaky_bucket_refresh_local _ _ (counter_key key identifier) rule
                   clock (take_lock_same_slot self lock_key _)) as [-> _].
Qed.

Lemma dispatch_denied_keeps_refreshed s key identifier rule cost clock info :
  snd (dispatch s key identifier rule cost clock) = Return false info →
  ∃ pre, refreshed s key identifier rule clock = Some pre ∧
         counters (fst (dispatch s key identifier rule cost clock))
           !! counter_key key identifier = Some pre.
Proof.
  unfold dispatch, refreshed. destruct (strategy rule).
  - unfold _check_fixed_window; cbv zeta.
    destruct (fixed_window_refresh s _ rule _) as [s1 [e|[[count window] reset_time]]] eqn:Href;
      [done|].
    apply fixed_window_refresh_stored in Href.
    split_checks; intros [= <-]; eauto.
  - unfold _check_sliding_window; cbv zeta.
    destruct (sliding_window_refresh s _ rule _) as [s1 [e|[timestamps count]]] eqn:Href;
      [done|].
    apply sliding_window_refresh_stored in Href as [Href _].
    split_checks; intros [= <-]; eauto.
  - unfold _check_token_bucket; cbv zeta.
    destruct (token_bucket_refresh s _ rule _) as [s1 [e|[tokens last_update]]] eqn:Href;
      [done|].
    apply token_bucket_refresh_stored in Href as [Href _].
    split_checks; intros [= <-]; eauto.
  - unfold _check_leaky_bucket; cbv zeta.
    destruct (leaky_bucket_refresh s _ rule _) as [s1 [e|[[water_level last_leak] capacity]]] eqn:Href;
      [done|].
    apply leaky_bucket_refresh_stored in Href as [Href _].
    split_checks; intros [= <-]; eauto.
Qed.

(** X3: a denied check charges nothing.  Whatever the strategy, when
    [check_limit] returns [allowed = False] for a registered key, the counter
    it leaves for the pair is the refreshed one (rolled over, pruned,
    refilled or leaked at the time of the check), with the usage the limit
    test read. *)
Theorem denied_check_charges_nothing self key identifier rule cost clock info :
  rules self !! key = Some rule →
  snd (check_limit self key identifier cost clock) = Return false info →
  ∃ pre, refreshed self key identifier rule clock = Some pre ∧
         counters (fst (check_limit self key identifier cost clock))
           !! counter_key key identifier = Some pre.
Proof.
  intros Hrule. unfold check_limit. rewrite Hrule. intros Hden.
  apply dispatch_denied_keeps_refreshed in Hden as (pre & Hpre & Hslot).
  rewrite refreshed_take_lock in Hpre. eauto.
Qed.

Lemma denied_check_charges_nothing_witness :
  ∃ info,
    snd (check_limit limiter_at_burst "k" "u" (Some 2) 30) = Return false info ∧
    ∃ pre, refreshed limiter_at_burst "k" "u" rule_burst5 30 = Some pre ∧
           counters (fst (check_limit limiter_at_burst "k" "u" (Some 2) 30))
             !! counter_key "k" "u" = Some pre.
Proof.
  eexists. split; [vm_compute; reflexivity|].
  eapply (denied_check_charges_nothing limiter_at_burst "k" "u" rule_burst5 (Some 2) 30);
    vm_compute; reflexivity.
Defined.

(** ** Window strategies: the quota is never exceeded *)

Lemma filter_length_bound {A} (f : A → bool) (l : list A) :
  (length (List.filter f l) ≤ length l)%nat.
Proof. induction l as [|x l IH]; simpl; [lia|]. destruct (f x); simpl; lia. Qed.

Lemma dispatch_within_quota s key identifier rule cost clock :
  strategy rule = FIXED_WINDOW ∨ strategy rule = SLIDING_WINDOW →
  0 ≤ requests_per_period rule →
  within_quota rule (counters s !! counter_key key identifier) →
  within_quota rule
    (counters (fst (dispatch s key identifier rule cost clock))
       !! counter_key key identifier).
Proof.
  intros Hstrat Hq Hin. unfold dispatch. destruct Hstrat as [Hs|Hs]; rewrite Hs.
  - unfold _check_fixed_window; cbv zeta.
    destruct (fixed_window_refresh s _ rule _)
      as [s1 [e|[[count window] reset_time]]] eqn:Href.
    + unfold fixed_window_refresh in Href. revert Href.
      split_checks; by intros [= <- <-].
    + assert (Hc : count ≤ requests_per_period rule).
      { unfold fixed_window_refresh in Href. revert Href Hin.
        split_checks; intros [= <- <- <- <-] Hin; simpl in Hin; lia. }
      apply fixed_window_refresh_stored in Href.
      split_checks; simpl; rewrite ?lookup_insert_eq, ?Href; simpl; lia.
  - unfold _check_sliding_window; cbv zeta.
    destruct (sliding_window_refresh s _ rule _)
      as [s1 [e|[timestamps count]]] eqn:Href.
    + unfold sliding_window_refresh in Href; cbv zeta in Href. revert Href.
      destruct (counters s !! counter_key key identifier) as [[]|] eqn:E;
        rewrite ?counters_set_counter_eq, ?E; try done; intros [= <- <-];
        simpl; by rewrite E.
    + assert (Hlen : Z.of_nat (length timestamps) ≤ requests_per_period rule).
      { unfold sliding_window_refresh in Href; cbv zeta in Href. revert Href.
        destruct (counters s !! counter_key key identifier) as [[]|] eqn:E;
          rewrite ?counters_set_counter_eq, ?E; try done; intros [= <- <- <-];
          simpl in *; [|lia].
        pose proof (filter_length_bound
                      (λ ts, Py.gt ts (clock - inject_Z (period_seconds rule))%Q)
                      timestamps0). lia. }
      apply sliding_window_refresh_stored in Href as (Href & -> & _).
      destruct (Z.of_nat (length timestamps) + cost >? requests_per_period rule) eqn:E.
      * simpl. rewrite Href. simpl. lia.
      * destruct (Py.min_list _); simpl; rewrite lookup_insert_eq; simpl;
          rewrite length_app, repeat_length; unfold Py.range_len; lia.
Qed.

Lemma run_checks_within_quota key identifier rule calls : ∀ self,
  rules self !! key = Some rule →
  strategy rule = FIXED_WINDOW ∨ strategy rule = SLIDING_WINDOW →
  0 ≤ requests_per_period rule →
  within_quota rule (counters self !! counter_key key identifier) →
  Forall (λ s, within_quota rule (counters s !! counter_key key identifier))
    (run_checks self key identifier calls).
Proof.
  induction calls as [|[cost clock] calls IH]; intros self Hrule Hstrat Hq Hin;
    [constructor|].
  simpl. destruct (check_limit_frame self key identifier (Some cost) clock) as [Hrules _].
  rewrite (check_limit_registered _ _ _ _ _ _ Hrule) in *.
  assert (within_quota rule
            (counters (fst (dispatch (take_lock self (counter_key key identifier))
                              key identifier rule cost clock))
               !! counter_key key identifier))
    by (by apply dispatch_within_quota).
  constructor; [done|]. apply IH; try done. by rewrite Hrules.
Qed.

(** X4: under one registered fixed-window or sliding-window rule whose quota
    is not negative, whatever the costs (also zero or negative) and the
    clock readings of a sequence of checks of a pair that starts without a
    counter, the stored count never exceeds [requests_per_period], and a
    sliding window never holds more timestamps than that, after every
    check. *)
Theorem window_count_never_exceeds_quota self key identifier rule calls :
  rules self !! key = Some rule →
  strategy rule = FIXED_WINDOW ∨ strategy rule = SLIDING_WINDOW →
  0 ≤ requests_per_period rule →
  counters self !! counter_key key identifier = None →
  Forall (λ s, within_quota rule (counters s !! counter_key key identifier))
    (run_checks self key identifier calls).
Proof.
  intros Hrule Hstrat Hq Hnone. apply run_checks_within_quota; try done.
  by rewrite Hnone.
Qed.

Lemma window_count_never_exceeds_quota_witness :
  Forall (λ s, within_quota rule_sliding3 (counters s !! counter_key "k" "u"))
    (run_checks limiter_sliding3 "k" "u"
       [(1, 0%Q); (2, 0%Q); (1, 10%Q); (-1, 20%Q); (3, 61%Q)]).
Proof.
  apply (window_count_never_exceeds_quota limiter_sliding3 "k" "u" rule_sliding3);
    [vm_compute; reflexivity | right; reflexivity | simpl; lia | vm_compute; reflexivity].
Defined.

(** X5: after a sliding-window check that returns, made with a cost that is
    not negative, the stored [count] is the number of stored timestamps,
    and every stored timestamp is later than [now - period_seconds] or is
    [now] itself. *)
Theorem sliding_window_count_is_length self key identifier rule cost clock allowed info :
  rules self !! key = Some rule →
  strategy rule = SLIDING_WINDOW →
  0 ≤ cost →
  snd (check_limit self key identifier (Some cost) clock) = Return allowed info →
  ∃ timestamps,
    counters (fst (check_limit self key identifier (Some cost) clock))
      !! counter_key key identifier
      = Some (SlidingWindowCounter timestamps (Z.of_nat (length timestamps))) ∧
    Forall (λ ts, (clock - inject_Z (period_seconds rule) < ts)%Q ∨ ts = clock) timestamps.
Proof.
  intros Hrule Hstrat Hcost. unfold check_limit, dispatch. rewrite Hrule, Hstrat.
  unfold _check_sliding_window; cbv zeta.
  change (default 1 (Some cost)) with cost.
  destruct (sliding_window_refresh _ _ rule _) as [s1 [e|[timestamps count]]] eqn:Href;
    [done|].
  apply sliding_window_refresh_stored in Href as (Href & -> & Hwin).
  destruct (Z.of_nat (length timestamps) + cost >? requests_per_period rule) eqn:E.
  - intros _. exists timestamps. split; [exact Href|].
    eapply Forall_impl; [exact Hwin|]. intros ts Hts; by left.
  - intros _. exists (timestamps ++ repeat clock (Py.range_len cost)).
    destruct (Py.min_list _); simpl; rewrite lookup_insert_eq;
      (split; [do 2 f_equal; rewrite length_app, repeat_length;
               unfold Py.range_len; lia|]);
      (apply Forall_app; split;
       [eapply Forall_impl; [exact Hwin|]; intros ts Hts; by left
       |apply Forall_forall; intros ts Hin%list_elem_of_In%repeat_spec; by right]).
Qed.

Lemma sliding_window_count_is_length_witness :
  ∃ allowed info,
    snd (check_limit limiter_sliding3 "k" "u" (Some 2) 5) = Return allowed info ∧
    ∃ timestamps,
      counters (fst (check_limit limiter_sliding3 "k" "u" (Some 2) 5))
        !! counter_key "k" "u"
        = Some (SlidingWindowCounter timestamps (Z.of_nat (length timestamps))) ∧
      Forall (λ ts, (5 - inject_Z (period_seconds rule_sliding3) < ts)%Q ∨ ts = 5%Q)
        timestamps.
Proof.
  do 2 eexists. split; [vm_compute; reflexivity|].
  eapply (sliding_window_count_is_length limiter_sliding3 "k" "u" rule_sliding3 2 5);
    [vm_compute; reflexivity | reflexivity | lia | vm_compute; reflexivity].
Defined.

(** ** Exceptions *)

Lemma mod_Some now period : period ≠ 0 → Py.mod_ now period = Some (now mod period).
Proof. intros Hp. unfold Py.mod_. destruct (period =? 0) eqn:E; [by apply Z.eqb_eq in E | done]. Qed.

(** X6: a fixed-window check does not raise when the period of the rule is
    not zero, whatever cost is passed and whatever counter the pair holds
    (none, one of the current or of an earlier window, or one built by
    another strategy); it leaves a fixed-window counter.  Every operation
    of this path is on integers. *)
Theorem fixed_window_check_never_raises self key identifier rule cost clock :
  rules self !! key = Some rule →
  strategy rule = FIXED_WINDOW →
  period_seconds rule ≠ 0 →
  returned (snd (check_limit self key identifier cost clock)) ∧
  ∃ c, counters (fst (check_limit self key identifier cost clock))
         !! counter_key key identifier = Some c ∧
       shape_of c = FIXED_WINDOW.
Proof.
  intros Hrule Hs Hp.
  unfold check_limit, dispatch. rewrite Hrule, Hs.
  set (s := take_lock self (counter_key key identifier)). clearbody s.
  unfold _check_fixed_window, fixed_window_refresh; cbv zeta.
  rewrite (mod_Some _ _ Hp).
  destruct (counters s !! counter_key key identifier) as [[]|] eqn:E;
    split_checks; simpl; rewrite ?lookup_insert_eq, ?E; eauto.
Qed.

Lemma fixed_window_check_never_raises_witness :
  counters (add_rule limiter_used "user:command" rule_burst5)
    !! counter_key "user:command" "u" = Some (TokenBucketCounter 17 0) ∧
  returned (snd (check_limit (add_rule limiter_used "user:command" rule_burst5)
                   "user:command" "u" (Some 40) 3)) ∧
  ∃ c, counters (fst (check_limit (add_rule limiter_used "user:command" rule_burst5)
                        "user:command" "u" (Some 40) 3))
         !! counter_key "user:command" "u" = Some c ∧
       shape_of c = FIXED_WINDOW.
Proof.
  split; [vm_compute; reflexivity|].
  apply (fixed_window_check_never_raises
           (add_rule limiter_used "user:command" rule_burst5) "user:command" "u"
           rule_burst5 (Some 40) 3);
    [vm_compute; reflexivity | reflexivity | simpl; lia].
Defined.



(** X8: with [period_seconds = 0] the first check of a pair raises
    [ZeroDivisionError] under every strategy but the sliding window.  The
    fixed window raises before it touches the counters; the buckets raise
    after they have created the counter of the pair, which stays behind:
    a full token bucket, an empty leaky bucket. *)
Theorem zero_period_raises self key identifier rule cost clock :
  rules self !! key = Some rule →
  period_seconds rule = 0 →
  strategy rule ≠ SLIDING_WINDOW →
  counters self !! counter_key key identifier = None →
  snd (check_limit self key identifier cost clock) = Raise ZeroDivisionError ∧
  counters (fst (check_limit self key identifier cost clock))
    !! counter_key key identifier
  = match strategy rule with
    | TOKEN_BUCKET =>
      Some (TokenBucketCounter (inject_Z (bucket_capacity rule)) clock)
    | LEAKY_BUCKET => Some (LeakyBucketCounter 0 clock (bucket_capacity rule))
    | _ => None
    end.
Proof.
  intros Hrule Hp Hns Hnone. unfold check_limit, dispatch. rewrite Hrule.
  assert (Hrate : rate rule = None) by (unfold rate, Py.div; by rewrite Hp).
  destruct (strategy rule) eqn:Hs; [|done| |].
  - unfold _check_fixed_window, fixed_window_refresh, Py.mod_; cbv zeta.
    rewrite Hp; simpl. by rewrite Hnone.
  - unfold _check_token_bucket, token_bucket_refresh; cbv zeta.
    change (counters (take_lock self (counter_key key identifier))) with (counters self).
    rewrite Hnone, counters_set_counter_eq, Hrate; simpl. by rewrite lookup_insert_eq.
  - unfold _check_leaky_bucket, leaky_bucket_refresh; cbv zeta.
    change (counters (take_lock self (counter_key key identifier))) with (counters self).
    rewrite Hnone, counters_set_counter_eq, Hrate; simpl. by rewrite lookup_insert_eq.
Qed.

Lemma zero_period_raises_witness :
  snd (check_limit (add_rule new_limiter "k" rule_period0) "k" "u" (Some 1) 4)
    = Raise ZeroDivisionError ∧
  counters (fst (check_limit (add_rule new_limiter "k" rule_period0) "k" "u" (Some 1) 4))
    !! counter_key "k" "u"
  = match strategy rule_period0 with
    | TOKEN_BUCKET =>
      Some (TokenBucketCounter (inject_Z (bucket_capacity rule_period0)) 4)
    | LEAKY_BUCKET => Some (LeakyBucketCounter 0 4 (bucket_capacity rule_period0))
    | _ => None
    end.
Proof.
  apply (zero_period_raises (add_rule new_limiter "k" rule_period0) "k" "u"
           rule_period0 (Some 1) 4);
    [vm_compute; reflexivity | reflexivity | discriminate | vm_compute; reflexivity].
Defined.

(** ** The refresh phase on an existing bucket *)


(** ** Leaky bucket: the capacity is fixed at creation *)



(** ** Pairs and their counter keys *)

Lemma string_append_assoc (a b c : string) :
  String.append (String.append a b) c = String.append a (String.append b c).
Proof.
  induction a as [|x a IH]; [reflexivity|].
  change (String x (String.append (String.append a b) c)
          = String x (String.append a (String.append b c))).
  by rewrite IH.
Qed.

(** X12: the counter key [f"{key}:{identifier}"] does not separate the two
    parts: the pair ([key:a], [b]) and the pair ([key], [a:b]) share one
    counter slot, so resetting one of them deletes the counter of the
    other. *)
Theorem counter_key_collision self key a b :
  counter_key (String.append key (String.append ":" a)) b
    = counter_key key (String.append a (String.append ":" b)) ∧
  counters (reset_limit self key (String.append a (String.append ":" b)))
    !! counter_key (String.append key (String.append ":" a)) b = None.
Proof.
  assert (E : counter_key (String.append key (String.append ":" a)) b
              = counter_key key (String.append a (String.append ":" b))).
  { unfold counter_key. by rewrite string_append_assoc. }
  split; [exact E|]. rewrite E. apply reset_limit_slot.
Qed.

(** ** Checks of different pairs do not interfere *)

Lemma check_limit_local s1 s2 key identifier cost clock :
  rules s1 = rules s2 →
  same_slot (counter_key key identifier) s1 s2 →
  snd (check_limit s1 key identifier cost clock)
    = snd (check_limit s2 key identifier cost clock) ∧
  same_slot (counter_key key identifier)
    (fst (check_limit s1 key identifier cost clock))
    (fst (check_limit s2 key identifier cost clock)).
Proof.
  intros Hr Hslot. unfold check_limit. rewrite Hr.
  destruct (rules s2 !! key) as [rule|]; [|done].
  by apply dispatch_local.
Qed.

(** X13: checks of two pairs with different counter keys commute: made in
    either order, each returns the same outcome and the limiter ends with
    the same counters and rules. *)
Theorem checks_of_different_pairs_commute
    self key1 identifier1 cost1 clock1 key2 identifier2 cost2 clock2 :
  counter_key key1 identifier1 ≠ counter_key key2 identifier2 →
  let a := check_limit self key1 identifier1 cost1 clock1 in
  let ab := check_limit (fst a) key2 identifier2 cost2 clock2 in
  let b := check_limit self key2 identifier2 cost2 clock2 in
  let ba := check_limit (fst b) key1 identifier1 cost1 clock1 in
  snd a = snd ba ∧ snd ab = snd b ∧
  counters (fst ab) = counters (fst ba) ∧ rules (fst ab) = rules (fst ba).
Proof.
  intros Hne a ab b ba.
  destruct (check_limit_frame self key1 identifier1 cost1 clock1) as [Hra Hfa].
  destruct (check_limit_frame self key2 identifier2 cost2 clock2) as [Hrb Hfb].
  destruct (check_limit_frame (fst a) key2 identifier2 cost2 clock2) as [Hrab Hfab].
  destruct (check_limit_frame (fst b) key1 identifier1 cost1 clock1) as [Hrba Hfba].
  fold a in Hra, Hfa. fold b in Hrb, Hfb. fold ab in Hrab, Hfab. fold ba in Hrba, Hfba.
  destruct (check_limit_local self (fst b) key1 identifier1 cost1 clock1) as [Ho1 Hs1];
    [by rewrite Hrb | unfold same_slot; by rewrite Hfb|].
  destruct (check_limit_local (fst a) self key2 identifier2 cost2 clock2) as [Ho2 Hs2];
    [done | unfold same_slot; by rewrite Hfa|].
  fold a ba in Ho1, Hs1. fold ab b in Ho2, Hs2. unfold same_slot in Hs1, Hs2.
  split; [exact Ho1|]. split; [exact Ho2|]. split; [|congruence].
  apply map_eq; intros k.
  destruct (decide (k = counter_key key1 identifier1)) as [->|H1].
  - by rewrite Hfab, Hs1.
  - destruct (decide (k = counter_key key2 identifier2)) as [->|H2].
    + by rewrite Hs2, Hfba.
    + by rewrite Hfab, Hfa, Hfba, Hfb.
Qed.

Lemma checks_of_different_pairs_commute_witness :
  let a := check_limit (add_default_rules new_limiter) "user:command" "u" (Some 3) 1 in
  let ab := check_limit (fst a) "user:message" "v" (Some 2) 2 in
  let b := check_limit (add_default_rules new_limiter) "user:message" "v" (Some 2) 2 in
  let ba := check_limit (fst b) "user:command" "u" (Some 3) 1 in
  snd a = snd ba ∧ snd ab = snd b ∧
  counters (fst ab) = counters (fst ba) ∧ rules (fst ab) = rules (fst ba).
Proof.
  apply (checks_of_different_pairs_commute (add_default_rules new_limiter)
           "user:command" "u" (Some 3) 1 "user:message" "v" (Some 2) 2).
  vm_compute; discriminate.
Defined.

(** ** Locks *)

(** X14: the lock table never shrinks.  A check keeps every lock and, for a
    registered key, holds the lock of its pair afterwards; for an
    unregistered key it creates none; [reset_limit] and
    [cleanup_old_entries] delete counters but never a lock. *)
Theorem locks_are_never_released self key identifier cost max_age_seconds clock :
  locks self ⊆ locks (fst (check_limit self key identifier cost clock)) ∧
  (is_Some (rules self !! key) →
   counter_key key identifier ∈ locks (fst (check_limit self key identifier cost clock))) ∧
  (rules self !! key = None →
   locks (fst (check_limit self key identifier cost clock)) = locks self) ∧
  locks (reset_limit self key identifier) = locks self ∧
  locks (cleanup_old_entries self max_age_seconds clock) = locks self.
Proof.
  unfold check_limit.
  destruct (rules self !! key) as [rule|] eqn:Hrule; simpl.
  - pose proof (dispatch_frame (take_lock self (counter_key key identifier))
                  key identifier rule (default 1 cost) clock) as Hframe.
    cbv zeta in Hframe. destruct Hframe as (_ & Hl & _).
    rewrite Hl. unfold take_lock; simpl.
    split; [apply union_subseteq_r|].
    split; [intros _; by apply elem_of_union_l, elem_of_singleton|]. split; [done|].
    split; [|done]. unfold reset_limit. by destruct (counters self !! _).
  - split; [done|]. split; [by intros [? ?]|]. split; [done|].
    split; [|done]. unfold reset_limit. by destruct (counters self !! _).
Qed.

(** ** Reset *)

(** X15: [reset_limit] touches the counter of its pair only: the rules and
    every other counter stay, the pair has no counter afterwards, a pair
    without counter is left alone, and resetting twice is resetting once. *)
Theorem reset_limit_only_that_pair self key identifier :
  rules (reset_limit self key identifier) = rules self ∧
  counters (reset_limit self key identifier) !! counter_key key identifier = None ∧
  (∀ k, k ≠ counter_key key identifier →
        counters (reset_limit self key identifier) !! k = counters self !! k) ∧
  (counters self !! counter_key key identifier = None →
   reset_limit self key identifier = self) ∧
  reset_limit (reset_limit self key identifier) key identifier
    = reset_limit self key identifier.
Proof.
  destruct (reset_limit_slot self key identifier) as [Hr Hc].
  split; [exact Hr|]. split; [exact Hc|]. split; [|split].
  - intros k Hk. unfold reset_limit.
    destruct (counters self !! counter_key key identifier); simpl;
      [by rewrite lookup_delete_ne | done].
  - intros Hnone. unfold reset_limit. by rewrite Hnone.
  - unfold reset_limit at 1. by rewrite Hc.
Qed.

(** ** Usage introspection agrees with the check diagnostics *)

Lemma min_list_None (l : list Q) : Py.min_list l = None → l = [].
Proof. by destruct l. Qed.

Lemma fixed_window_allowed_inv s key identifier rule cost clock info :
  snd (_check_fixed_window s key identifier rule cost clock) = Return true info →
  ∃ count window reset_time,
    counters (fst (_check_fixed_window s key identifier rule cost clock))
      !! counter_key key identifier
      = Some (FixedWindowCounter count window reset_time) ∧
    info_get "remaining" info = Some (num (requests_per_period rule - count)).
Proof.
  unfold _check_fixed_window; cbv zeta.
  destruct (fixed_window_refresh _ _ rule _)
    as [s1 [e|[[count window] reset_time]]]; [done|].
  split_checks; intros [= <-]; simpl; rewrite lookup_insert_eq; eauto.
Qed.

Lemma sliding_window_allowed_inv s key identifier rule cost clock info :
  0 ≤ cost →
  snd (_check_sliding_window s key identifier rule cost clock) = Return true info →
  ∃ timestamps count remaining,
    counters (fst (_check_sliding_window s key identifier rule cost clock))
      !! counter_key key identifier
      = Some (SlidingWindowCounter timestamps count) ∧
    info_get "remaining" info = Some (num remaining) ∧
    count + remaining = requests_per_period rule.
Proof.
  intros Hcost. unfold _check_sliding_window; cbv zeta.
  destruct (sliding_window_refresh _ _ rule _)
    as [s1 [e|[timestamps count]]] eqn:Href; [done|].
  apply sliding_window_refresh_stored in Href as (_ & -> & _).
  destruct (_ >? _); [done|].
  destruct (Py.min_list _) as [oldest|] eqn:Hmin; intros [= <-]; simpl;
    rewrite lookup_insert_eq; do 3 eexists; (split; [reflexivity|]);
    (split; [reflexivity|]); [lia|].
  apply min_list_None, app_eq_nil in Hmin as [-> Hrep]. simpl.
  apply (f_equal length) in Hrep. rewrite repeat_length in Hrep.
  unfold Py.range_len in Hrep. simpl in Hrep. lia.
Qed.

Lemma token_bucket_allowed_inv s key identifier rule cost clock info :
  snd (_check_token_bucket s key identifier rule cost clock) = Return true info →
  ∃ tokens last_update,
    counters (fst (_check_token_bucket s key identifier rule cost clock))
      !! counter_key key identifier
      = Some (TokenBucketCounter tokens last_update) ∧
    info_get "tokens_remaining" info = Some (VNum tokens).
Proof.
  unfold _check_token_bucket; cbv zeta.
  destruct (token_bucket_refresh _ _ rule _) as [s1 [e|[tokens lu]]]; [done|].
  split_checks; intros [= <-]; simpl; rewrite lookup_insert_eq; eauto.
Qed.

Lemma leaky_bucket_allowed_inv s key identifier rule cost clock info :
  snd (_check_leaky_bucket s key identifier rule cost clock) = Return true info →
  ∃ water_level last_leak capacity,
    counters (fst (_check_leaky_bucket s key identifier rule cost clock))
      !! counter_key key identifier
      = Some (LeakyBucketCounter water_level last_leak capacity) ∧
    info_get "water_level" info = Some (VNum water_level) ∧
    info_get "capacity_remaining" info
      = Some (VNum (inject_Z capacity - water_level)%Q).
Proof.
  unfold _check_leaky_bucket; cbv zeta.
  destruct (leaky_bucket_refresh _ _ rule _)
    as [s1 [e|[[water_level lu] capacity]]]; [done|].
  split_checks; intros [= <-]; simpl; rewrite lookup_insert_eq; eauto 10.
Qed.

(** X16: after an allowed fixed-window or sliding-window check with a cost
    that is not negative, [get_usage] has an entry for the pair, and its
    [current_count] and the [remaining] the check reported add up to the
    rule's quota, which [get_usage] reports as [limit]. *)
Theorem usage_matches_allowed_window_check
    self key identifier rule cost clock clock' info :
  rules self !! key = Some rule →
  strategy rule = FIXED_WINDOW ∨ strategy rule = SLIDING_WINDOW →
  0 ≤ cost →
  snd (check_limit self key identifier (Some cost) clock) = Return true info →
  ∃ u count remaining,
    get_usage (fst (check_limit self key identifier (Some cost) clock))
      key identifier clock' = Some u ∧
    usage_get "current_count" u = Some (onum count) ∧
    usage_get "limit" u = Some (onum (requests_per_period rule)) ∧
    info_get "remaining" info = Some (num remaining) ∧
    count + remaining = requests_per_period rule.
Proof.
  intros Hrule Hstrat Hcost Hok.
  destruct (check_limit_frame self key identifier (Some cost) clock) as [Hrules _].
  unfold get_usage. rewrite Hrules, Hrule. clear Hrules.
  rewrite (check_limit_registered _ _ _ _ _ _ Hrule) in *. unfold dispatch in *.
  destruct Hstrat as [Hs|Hs]; rewrite Hs in *.
  - apply fixed_window_allowed_inv in Hok as (count & w & r & -> & Hrem).
    do 3 eexists. split; [reflexivity|]. split; [reflexivity|].
    split; [reflexivity|]. split; [exact Hrem|]. simpl. lia.
  - apply (sliding_window_allowed_inv _ _ _ _ _ _ _ Hcost) in Hok
      as (ts & count & rem & -> & Hrem & Hsum).
    do 3 eexists. split; [reflexivity|]. split; [reflexivity|].
    split; [reflexivity|]. split; [exact Hrem|]. exact Hsum.
Qed.

Lemma usage_matches_allowed_window_check_witness :
  ∃ info,
    snd (check_limit limiter_sliding3 "k" "u" (Some 2) 5) = Return true info ∧
    ∃ u count remaining,
      get_usage (fst (check_limit limiter_sliding3 "k" "u" (Some 2) 5)) "k" "u" 9 = Some u ∧
      usage_get "current_count" u = Some (onum count) ∧
      usage_get "limit" u = Some (onum (requests_per_period rule_sliding3)) ∧
      info_get "remaining" info = Some (num remaining) ∧
      count + remaining = requests_per_period rule_sliding3.
Proof.
  eexists. split; [vm_compute; reflexivity|].
  eapply (usage_matches_allowed_window_check limiter_sliding3 "k" "u" rule_sliding3 2 5 9);
    [vm_compute; reflexivity | right; reflexivity | lia | vm_compute; reflexivity].
Defined.

(** X17: after an allowed token-bucket check [get_usage] reports as
    [tokens] the [tokens_remaining] of the check; after an allowed
    leaky-bucket check it reports the check's [water_level], and its
    [capacity] less that level is the check's [capacity_remaining]. *)
Theorem usage_matches_allowed_bucket_check
    self key identifier rule cost clock clock' info :
  rules self !! key = Some rule →
  strategy rule = TOKEN_BUCKET ∨ strategy rule = LEAKY_BUCKET →
  snd (check_limit self key identifier cost clock) = Return true info →
  ∃ u level,
    get_usage (fst (check_limit self key identifier cost clock))
      key identifier clock' = Some u ∧
    match strategy rule with
    | LEAKY_BUCKET =>
      usage_get "water_level" u = Some (OVal (VNum level)) ∧
      info_get "water_level" info = Some (VNum level) ∧
      ∃ capacity,
        usage_get "capacity" u = Some (onum capacity) ∧
        info_get "capacity_remaining" info = Some (VNum (inject_Z capacity - level)%Q)
    | _ =>
      usage_get "tokens" u = Some (OVal (VNum level)) ∧
      info_get "tokens_remaining" info = Some (VNum level)
    end.
Proof.
  intros Hrule Hstrat Hok.
  destruct (check_limit_frame self key identifier cost clock) as [Hrules _].
  unfold get_usage. rewrite Hrules, Hrule. clear Hrules.
  unfold check_limit in *. rewrite Hrule in *. unfold dispatch in *.
  destruct Hstrat as [Hs|Hs]; rewrite Hs in *.
  - apply token_bucket_allowed_inv in Hok as (t & lu & -> & Hrem).
    do 2 eexists. split; [reflexivity|]. split; [reflexivity | exact Hrem].
  - apply leaky_bucket_allowed_inv in Hok as (w & l & cap & -> & Hw & Hrem).
    do 2 eexists. split; [reflexivity|]. split; [reflexivity|].
    split; [exact Hw|]. exists cap. split; [reflexivity | exact Hrem].
Qed.

Lemma usage_matches_allowed_bucket_check_witness :
  ∃ info,
    snd (check_limit limiter_used "user:command" "u" (Some 4) 6) = Return true info ∧
    ∃ u level,
      get_usage (fst (check_limit limiter_used "user:command" "u" (Some 4) 6))
        "user:command" "u" 8 = Some u ∧
      usage_get "tokens" u = Some (OVal (VNum level)) ∧
      info_get "tokens_remaining" info = Some (VNum level).
Proof.
  eexists. split; [vm_compute; reflexivity|].
  apply (usage_matches_allowed_bucket_check limiter_used "user:command" "u"
           rule_command (Some 4) 6 8);
    [vm_compute; reflexivity | left; reflexivity | vm_compute; reflexivity].
Defined.

(** ** Global statistics *)

Lemma stats_step_comm (c1 c2 : Counter) (acc : Z * Z) :
  stats_step c1 (stats_step c2 acc) = stats_step c2 (stats_step c1 acc).
Proof. destruct c1, c2, acc; simpl; f_equal; lia. Qed.

Lemma stats_fold_delete (cs : gmap string Counter) (k : string) (c : Counter) :
  cs !! k = Some c →
  map_fold (λ _ counter acc, stats_step counter acc) (0, 0) cs
  = stats_step c (map_fold (λ _ counter acc, stats_step counter acc) (0, 0) (delete k cs)).
Proof.
  intros Hc. apply (map_fold_delete_L (λ _ counter acc, stats_step counter acc));
    [|exact Hc]. intros. apply stats_step_comm.
Qed.

(** X18: [get_global_stats] counts window counters only.  Resetting a pair
    that holds a fixed-window or sliding-window counter lowers
    [total_requests_tracked] by the count of that counter and
    [active_rate_limits] by one; resetting a pair that holds a token or
    leaky bucket, or nothing, changes neither. *)
Theorem reset_limit_in_global_stats repr_len self key identifier :
  ∃ total active,
    info_get "total_requests_tracked" (get_global_stats repr_len self)
      = Some (num total) ∧
    info_get "active_rate_limits" (get_global_stats repr_len self)
      = Some (num active) ∧
    let '(count, one) :=
      match counters self !! counter_key key identifier with
      | Some (FixedWindowCounter count _ _) | Some (SlidingWindowCounter _ count) =>
        (count, 1)
      | _ => (0, 0)
      end in
    info_get "total_requests_tracked"
      (get_global_stats repr_len (reset_limit self key identifier))
      = Some (num (total - count)) ∧
    info_get "active_rate_limits"
      (get_global_stats repr_len (reset_limit self key identifier))
      = Some (num (active - one)).
Proof.
  unfold get_global_stats, reset_limit.
  destruct (counters self !! counter_key key identifier) as [c|] eqn:Hc; simpl.
  - rewrite (stats_fold_delete _ _ _ Hc).
    destruct (map_fold _ _ (delete _ _)) as [t a].
    destruct c; simpl; do 2 eexists; (split; [reflexivity|]); (split; [reflexivity|]);
      split; do 2 f_equal; lia.
  - destruct (map_fold _ _ _) as [t a]. simpl.
    do 2 eexists. split; [reflexivity|]. split; [reflexivity|].
    split; do 2 f_equal; lia.
Qed.

(** ** Cleanup sweep and activity *)

Lemma cleanup_old_entries_fixpoint self max_age_seconds clock key :
  counters (cleanup_old_entries (cleanup_old_entries self max_age_seconds clock)
              max_age_seconds clock) !! key
  = counters (cleanup_old_entries self max_age_seconds clock) !! key.
Proof.
  rewrite !cleanup_old_entries_lookup.
  destruct (counters self !! key) as [c|]; [|done].
  destruct (sweep_selects _ _ c) eqn:E; [done|]. by rewrite E.
Qed.

(** X19: the sweep is idempotent: a second sweep with the same age limit at
    the same clock reading finds nothing more to delete. *)
Theorem cleanup_old_entries_idempotent self max_age_seconds clock :
  cleanup_old_entries (cleanup_old_entries self max_age_seconds clock)
    max_age_seconds clock
  = cleanup_old_entries self max_age_seconds clock.
Proof.
  assert (E : counters (cleanup_old_entries
                          (cleanup_old_entries self max_age_seconds clock)
                          max_age_seconds clock)
              = counters (cleanup_old_entries self max_age_seconds clock))
    by (apply map_eq; intros k; apply cleanup_old_entries_fixpoint).
  destruct (cleanup_old_entries (cleanup_old_entries self max_age_seconds clock)
              max_age_seconds clock) as [r1 c1 l1] eqn:E1.
  destruct (cleanup_old_entries self max_age_seconds clock) as [r2 c2 l2] eqn:E2.
  simpl in E. subst c2.
  apply (f_equal rules) in E1 as Hr. apply (f_equal locks) in E1 as Hl.
  simpl in Hr, Hl. unfold cleanup_old_entries in Hr, Hl. simpl in Hr, Hl.
  by subst.
Qed.

(** X20: a bucket that was checked recently survives the sweep: after a
    token-bucket or leaky-bucket check that returns (allowed or denied) at
    time [clock], a sweep at a time no more than [max_age_seconds] later
    keeps the counter of the pair. *)
Theorem checked_bucket_survives_sweep
    self key identifier rule cost clock allowed info (max_age_seconds : option Z)
    sweep_clock :
  rules self !! key = Some rule →
  strategy rule = TOKEN_BUCKET ∨ strategy rule = LEAKY_BUCKET →
  snd (check_limit self key identifier cost clock) = Return allowed info →
  (sweep_clock - clock <= inject_Z (default 86400%Z max_age_seconds))%Q →
  let self' := fst (check_limit self key identifier cost clock) in
  is_Some (counters self' !! counter_key key identifier) ∧
  counters (cleanup_old_entries self' max_age_seconds sweep_clock)
      !! counter_key key identifier
    = counters self' !! counter_key key identifier.
Proof.
  intros Hrule Hstrat Hret Hage self'. unfold self'. clear self'.
  rewrite cleanup_old_entries_lookup.
  unfold check_limit in *. rewrite Hrule in *. unfold dispatch in *.
  apply Py_gt_false in Hage.
  destruct Hstrat as [Hs|Hs]; rewrite Hs in *.
  - unfold _check_token_bucket in Hret; cbv zeta in Hret.
    destruct (token_bucket_refresh _ _ rule clock) as [s1 [e|[tokens lu]]] eqn:Href;
      [done|].
    pose proof (token_bucket_refresh_stored _ _ _ _ _ _ _ Href) as (_ & -> & _).
    rewrite (check_token_bucket_slot _ _ _ _ (default 1 cost) _ _ _ _ Href).
    simpl. by rewrite Hage.
  - unfold _check_leaky_bucket in Hret; cbv zeta in Hret.
    destruct (leaky_bucket_refresh _ _ rule clock)
      as [s1 [e|[[w lu] cap]]] eqn:Href; [done|].
    pose proof (leaky_bucket_refresh_stored _ _ _ _ _ _ _ _ Href) as (_ & -> & _).
    rewrite (check_leaky_bucket_slot _ _ _ _ (default 1 cost) _ _ _ _ _ Href).
    simpl. by rewrite Hage.
Qed.

Lemma checked_bucket_survives_sweep_witness :
  ∃ allowed info,
    snd (check_limit limiter_used "user:command" "u" (Some 4) 100) = Return allowed info ∧
    is_Some (counters (fst (check_limit limiter_used "user:command" "u" (Some 4) 100))
               !! counter_key "user:command" "u") ∧
    counters (cleanup_old_entries
                (fst (check_limit limiter_used "user:command" "u" (Some 4) 100))
                None 86500) !! counter_key "user:command" "u"
      = counters (fst (check_limit limiter_used "user:command" "u" (Some 4) 100))
          !! counter_key "user:command" "u".
Proof.
  do 2 eexists. split; [vm_compute; reflexivity|].
  eapply (checked_bucket_survives_sweep limiter_used "user:command" "u" rule_command
            (Some 4) 100 _ _ None 86500);
    [vm_compute; reflexivity | left; reflexivity | vm_compute; reflexivity
    | vm_compute; discriminate].
Defined.

(** ** Windows: the reported reset time is enough *)

Lemma Py_int_inject_Z (z : Z) : Py.int (inject_Z z) = z.
Proof. unfold Py.int; simpl. apply Z.quot_1_r. Qed.

Lemma fixed_window_denied_inv s key identifier rule cost clock info :
  snd (_check_fixed_window s key identifier rule cost clock) = Return false info →
  ∃ count window reset_time,
    counters (fst (_check_fixed_window s key identifier rule cost clock))
      !! counter_key key identifier
      = Some (FixedWindowCounter count window reset_time) ∧
    info_get "reset_in" info = Some (num (reset_time - Py.int clock)).
Proof.
  unfold _check_fixed_window; cbv zeta.
  destruct (fixed_window_refresh s _ rule _)
    as [s1 [e|[[count window] reset_time]]] eqn:Href; [done|].
  apply fixed_window_refresh_stored in Href.
  split_checks; intros [= <-]; simpl; eauto.
Qed.

(** X23: the [reset_in] a denied fixed-window check reports is sufficient:
    with a positive period and a burst limit that, when set, is positive,
    the same request (a cost within the quota) repeated [reset_in] seconds
    after the second of the denial starts a new window and is allowed. *)
Theorem fixed_window_reset_in_suffices self key identifier rule cost clock info reset_in :
  rules self !! key = Some rule →
  strategy rule = FIXED_WINDOW →
  0 < period_seconds rule →
  (∀ burst, Py.truthy (burst_limit rule) = Some burst → 0 < burst) →
  fixed_window_aligned rule (counters self !! counter_key key identifier) →
  cost ≤ requests_per_period rule →
  snd (check_limit self key identifier (Some cost) clock) = Return false info →
  info_get "reset_in" info = Some (num reset_in) →
  ∃ info',
    snd (check_limit (fst (check_limit self key identifier (Some cost) clock))
           key identifier (Some cost) (inject_Z (Py.int clock + reset_in)))
    = Return true info'.
Proof.
  intros Hrule Hs Hp Hburst Hal Hcost Hden Hri.
  destruct (fixed_window_slot_aligned self key identifier rule (Some cost) clock
              Hrule Hs Hp Hal) as (c0 & w0 & r0 & Hslot0 & Hmod & Hin & Hreset).
  destruct (check_limit_frame self key identifier (Some cost) clock) as [Hrules _].
  set (s1 := fst (check_limit self key identifier (Some cost) clock)) in *.
  assert (Hrule1 : rules s1 !! key = Some rule) by (by rewrite Hrules).
  clear Hrules. unfold s1 in Hslot0, Hrule1 |- *. clear s1.
  rewrite (check_limit_registered _ _ _ _ _ _ Hrule) in *.
  unfold dispatch in Hden, Hslot0, Hrule1 |- *. rewrite Hs in Hden, Hslot0, Hrule1 |- *.
  apply fixed_window_denied_inv in Hden as (c & w & r & Hslot & Hinfo).
  rewrite Hslot0 in Hslot. injection Hslot as <- <- <-.
  rewrite Hri in Hinfo.
  assert (reset_in = r0 - Py.int clock) as ->
    by (unfold num, inject_Z in Hinfo; congruence).
  set (s1 := fst (_check_fixed_window _ key identifier rule cost clock)) in *.
  clearbody s1.
  rewrite (check_limit_registered _ _ _ _ _ _ Hrule1). unfold dispatch. rewrite Hs.
  unfold _check_fixed_window; cbv zeta.
  assert (Hb : window_boundary rule (inject_Z (Py.int clock + (r0 - Py.int clock))) = r0).
  { unfold window_boundary. rewrite Py_int_inject_Z.
    replace (Py.int clock + (r0 - Py.int clock)) with r0 by lia.
    subst r0. rewrite Z.add_mod, Hmod, Z_mod_same_full by lia. simpl.
    rewrite Z.mod_0_l by lia. lia. }
  rewrite fixed_window_refresh_renews; [|lia|].
  - cbv beta iota. rewrite Hb.
    destruct (0 + cost >? requests_per_period rule) eqn:E; [lia|].
    destruct (Py.truthy (burst_limit rule)) as [b|] eqn:Eb; [|eexists; reflexivity].
    specialize (Hburst b eq_refl).
    destruct (0 >=? b) eqn:E0; [lia | eexists; reflexivity].
  - change (counters (take_lock s1 (counter_key key identifier))) with (counters s1).
    rewrite Hslot0. simpl. rewrite Hb. lia.
Qed.

Lemma fixed_window_reset_in_suffices_witness :
  ∃ info,
    snd (check_limit limiter_at_burst "k" "u" (Some 2) 30) = Return false info ∧
    info_get "reset_in" info = Some (num 30) ∧
    ∃ info',
      snd (check_limit (fst (check_limit limiter_at_burst "k" "u" (Some 2) 30))
             "k" "u" (Some 2) (inject_Z (Py.int 30 + 30)))
      = Return true info'.
Proof.
  eexists. split; [vm_compute; reflexivity|]. split; [vm_compute; reflexivity|].
  eapply (fixed_window_reset_in_suffices limiter_at_burst "k" "u" rule_burst5 2 30);
    [vm_compute; reflexivity | reflexivity | simpl; lia
    | intros burst [= <-]; lia
    | vm_compute; split; reflexivity | simpl; lia
    | vm_compute; reflexivity | vm_compute; reflexivity].
Defined.





